(** * wcag_test: the audit front-ends and their string helpers

    A shallow embedding of [accessibility_tester.py] (the file-mode
    front-end: [is_valid_url], [run_node_axe], [render_html] and the page
    script) and of [streamlit_a11y_app.py] (the JSON-mode front-end:
    [StreamlitA11yIntegration.run_accessibility_check] and [main]).

    Python [str] values are modelled as [string], the UTF-8 bytes of the
    text.  Effects are explicit: a computation is a function of the world
    (the files, the log of spawned processes, what Streamlit was asked to
    show, the session state) that returns a value or raises.  What the
    operating system, the auditor process and [json.loads] answer is given
    by the class [Env]; so is the rendering of a result in [main], which
    only talks to Streamlit.  The state of the widgets is an argument of
    the page scripts.

    The definitions come first: the string operations, the programs, and a
    simulated environment on which the programs can be run.  The facts
    follow. *)

From Stdlib Require Import Ascii String List ZArith NArith Bool Lia.
From stdpp Require Import gmap strings pretty.

Import ListNotations.
Set Warnings "-register-all".
Local Open Scope list_scope.
Local Open Scope string_scope.

(** [simpl] may unfold the concatenation of strings again. *)
#[global] Arguments String.append !s1 s2 : simpl nomatch.

(* ===================================================================== *)
(** ** Python [str] operations used by the two programs *)
(* ===================================================================== *)

Module PyStr.

(** The two characters that a literal of this file cannot hold directly. *)
Definition nl : string := String "010"%char EmptyString.
Definition dq : string := String "034"%char EmptyString.

(** [len(s)] *)
Abbreviation len := String.length.

Fixpoint drop (n : nat) (s : string) : string :=
  match n, s with
  | S n', String _ s' => drop n' s'
  | _, _ => s
  end.

(** [s.startswith(p)] *)
Fixpoint startswith (s p : string) {struct p} : bool :=
  match p with
  | EmptyString => true
  | String a p' =>
      match s with
      | String b s' => Ascii.eqb a b && startswith s' p'
      | EmptyString => false
      end
  end.

(** [sub in s] *)
Fixpoint str_in (sub s : string) : bool :=
  startswith s sub ||
  match s with
  | EmptyString => false
  | String _ s' => str_in sub s'
  end.

(** [s.replace(old, new)]: the occurrences of [old] are taken from left to
    right and do not overlap.  After a match the scan resumes behind it, so
    the recursion is on a counter that the length of [s] bounds. *)
Fixpoint replace_from (fuel : nat) (old new s : string) : string :=
  match fuel with
  | O => s
  | S fuel' =>
      match s with
      | EmptyString => EmptyString
      | String c s' =>
          if startswith s old
          then new ++ replace_from fuel' old new (drop (len old) s)
          else String c (replace_from fuel' old new s')
      end
  end.

(** With an empty [old] Python puts [new] before every character and at
    the end. *)
Fixpoint replace_empty (new s : string) : string :=
  match s with
  | EmptyString => new
  | String c s' => new ++ String c (replace_empty new s')
  end.

Definition replace (s old new : string) : string :=
  match old with
  | EmptyString => replace_empty new s
  | String _ _ => replace_from (len s) old new s
  end.

(** [s.count(sub)] for a non-empty [sub]: non-overlapping occurrences. *)
Fixpoint count_from (fuel : nat) (sub s : string) : nat :=
  match fuel with
  | O => O
  | S fuel' =>
      match s with
      | EmptyString => O
      | String _ s' =>
          if startswith s sub
          then S (count_from fuel' sub (drop (len sub) s))
          else count_from fuel' sub s'
      end
  end.

Definition count (s sub : string) : nat :=
  match sub with
  | EmptyString => S (len s)
  | String _ _ => count_from (len s) sub s
  end.

(** [sep.join(l)] *)
Fixpoint join (sep : string) (l : list string) : string :=
  match l with
  | [] => EmptyString
  | [x] => x
  | x :: rest => x ++ sep ++ join sep rest
  end.

(** *** Whitespace, as [str.strip()] with no argument sees it

    The code points for which [str.isspace] holds are U+0009..U+000D,
    U+001C..U+0020, U+0085, U+00A0, U+1680, U+2000..U+200A, U+2028, U+2029,
    U+202F, U+205F and U+3000.  In UTF-8 they are one byte, or two bytes
    behind 0xC2, or three bytes behind 0xE1, 0xE2 or 0xE3. *)

Definition byte (c : ascii) : N := N_of_ascii c.

Definition space1 (a : ascii) : bool :=
  ((9 <=? byte a) && (byte a <=? 13) || (28 <=? byte a) && (byte a <=? 32))%N.

Definition space2 (a b : ascii) : bool :=
  ((byte a =? 194) && ((byte b =? 133) || (byte b =? 160)))%N.

Definition space3 (a b c : ascii) : bool :=
  ((byte a =? 225) && (byte b =? 154) && (byte c =? 128)
   || (byte a =? 226) && (byte b =? 128)
      && ((128 <=? byte c) && (byte c <=? 138)
          || (byte c =? 168) || (byte c =? 169) || (byte c =? 175))
   || (byte a =? 226) && (byte b =? 129) && (byte c =? 159)
   || (byte a =? 227) && (byte b =? 128) && (byte c =? 128))%N.

(** [s.lstrip()] *)
Fixpoint lstrip (s : string) : string :=
  match s with
  | EmptyString => EmptyString
  | String a s1 =>
      if space1 a then lstrip s1
      else
        match s1 with
        | EmptyString => s
        | String b s2 =>
            if space2 a b then lstrip s2
            else
              match s2 with
              | EmptyString => s
              | String c s3 => if space3 a b c then lstrip s3 else s
              end
        end
  end.

Definition is_empty (s : string) : bool :=
  match s with EmptyString => true | String _ _ => false end.

(** [s.rstrip()]: cut at the first position behind which all is whitespace. *)
Fixpoint rstrip (s : string) : string :=
  match s with
  | EmptyString => EmptyString
  | String a s' => if is_empty (lstrip s) then EmptyString else String a (rstrip s')
  end.

(** [s.strip()] *)
Definition strip (s : string) : string := rstrip (lstrip s).

(** *** Notions used to reason about these operations *)

(** Two strings clash when neither starts the other. *)
Definition clash (a b : string) : bool :=
  negb (startswith a b) && negb (startswith b a).

(** Every non-empty suffix of [x] clashes with [y]: no occurrence of [y]
    can begin inside an occurrence of [x]. *)
Fixpoint suffixes_clash (x y : string) : bool :=
  match x with
  | EmptyString => true
  | String _ x' => clash x y && suffixes_clash x' y
  end.

(** A solid byte is an ASCII character that is not whitespace; the bytes of
    a whitespace code point are all hollow. *)
Definition solid (c : ascii) : bool := negb (space1 c) && (byte c <? 128)%N.

Fixpoint all_solid (p : string) : bool :=
  match p with
  | EmptyString => true
  | String c p' => solid c && all_solid p'
  end.

Fixpoint all_hollow (p : string) : bool :=
  match p with
  | EmptyString => true
  | String c p' => negb (solid c) && all_hollow p'
  end.

(** The byte [c] occurs in [x]. *)
Fixpoint has_char (c : ascii) (x : string) : bool :=
  match x with
  | EmptyString => false
  | String d x' => Ascii.eqb d c || has_char c x'
  end.

(** The code points of a string, each as a one-character string: the
    elements Python iterates over.  The first byte of a code point tells
    how many bytes it has. *)
Fixpoint chars (s : string) : list string :=
  match s with
  | EmptyString => []
  | String a s1 =>
      let one := String a EmptyString :: chars s1 in
      if (byte a <? 192)%N then one
      else
        match s1 with
        | EmptyString => one
        | String b s2 =>
            if (byte a <? 224)%N
            then String a (String b EmptyString) :: chars s2
            else
              match s2 with
              | EmptyString => [String a (String b EmptyString)]
              | String c s3 =>
                  if (byte a <? 240)%N
                  then String a (String b (String c EmptyString)) :: chars s3
                  else
                    match s3 with
                    | EmptyString => [String a (String b (String c EmptyString))]
                    | String d s4 =>
                        String a (String b (String c (String d EmptyString)))
                        :: chars s4
                    end
              end
        end
  end.

End PyStr.

(* ===================================================================== *)
(** ** The fragment of [re] that [is_valid_url] uses *)
(* ===================================================================== *)

Module PyRe.

(** A pattern is a sequence of items: the anchor [^], a literal character,
    or a literal character followed by [?]. *)
Inductive item : Type :=
  | Bol
  | Lit (c : ascii)
  | Opt (c : ascii).

(** [re.compile] on that fragment: [^] is the anchor, [c?] is optional. *)
Fixpoint compile (p : string) : list item :=
  match p with
  | EmptyString => []
  | String c p' =>
      if Ascii.eqb c "^" then Bol :: compile p'
      else
        match p' with
        | String q p'' =>
            if Ascii.eqb q "?" then Opt c :: compile p''
            else Lit c :: compile p'
        | EmptyString => [Lit c]
        end
  end.

(** Matching at the current position; [bol] tells whether that position is
    the beginning of the subject.  An optional character is tried first
    (greedy), then skipped. *)
Fixpoint match_here (items : list item) (bol : bool) (s : string) : bool :=
  match items with
  | [] => true
  | Bol :: rest => bol && match_here rest bol s
  | Lit c :: rest =>
      match s with
      | String a s' => Ascii.eqb a c && match_here rest false s'
      | EmptyString => false
      end
  | Opt c :: rest =>
      match s with
      | String a s' => Ascii.eqb a c && match_here rest false s'
      | EmptyString => false
      end
      || match_here rest bol s
  end.

(** [re.match(pattern, s) is not None]: a match that starts at position 0. *)
Definition re_match (pattern s : string) : bool :=
  match_here (compile pattern) true s.

End PyRe.

(* ===================================================================== *)
(** ** Python values, exceptions and the effects of the two programs *)
(* ===================================================================== *)

Module Py.

(** The exception classes that can occur here.  All of them derive from
    [Exception], except [KeyboardInterrupt] and [SystemExit], which derive
    from [BaseException] only. *)
Inductive exn_class : Type :=
  | TimeoutExpired
  | FileNotFoundError
  | PermissionError
  | OSError
  | ValueError
  | JSONDecodeError
  | UnicodeDecodeError
  | RecursionError
  | MemoryError
  | AttributeError
  | KeyError
  | TypeError
  | KeyboardInterrupt
  | SystemExit.

Record exn : Type := mk_exn { exn_class_of : exn_class; exn_str : string }.

(** [isinstance(e, subprocess.TimeoutExpired)] *)
Definition is_TimeoutExpired (e : exn) : bool :=
  match exn_class_of e with TimeoutExpired => true | _ => false end.

(** [isinstance(e, Exception)] *)
Definition is_Exception (e : exn) : bool :=
  match exn_class_of e with
  | KeyboardInterrupt | SystemExit => false
  | _ => true
  end.

Inductive outcome (A : Type) : Type :=
  | Return (a : A)
  | Raise (e : exn).
Arguments Return {A} a.
Arguments Raise {A} e.

(** The values [json.loads] builds; a [dict] keeps its keys in insertion
    order.  A float is kept as its decimal text. *)
Inductive pyval : Type :=
  | PNone
  | PBool (b : bool)
  | PInt (z : Z)
  | PFloat (text : string)
  | PStr (s : string)
  | PList (l : list pyval)
  | PDict (d : list (string * pyval)).

(** [d[k]] and [k in d] on the items of a dict. *)
Fixpoint dict_get (d : list (string * pyval)) (k : string) : option pyval :=
  match d with
  | [] => None
  | (k', v) :: rest => if String.eqb k' k then Some v else dict_get rest k
  end.

Definition has_key (v : pyval) (k : string) : bool :=
  match v with
  | PDict d => match dict_get d k with Some _ => true | None => false end
  | _ => false
  end.

Definition get_item (v : pyval) (k : string) : option pyval :=
  match v with
  | PDict d => dict_get d k
  | _ => None
  end.

(** [d[k] = v] on the items of a dict: an existing key keeps its place. *)
Fixpoint dict_set (d : list (string * pyval)) (k : string) (v : pyval)
  : list (string * pyval) :=
  match d with
  | [] => [(k, v)]
  | (k', v') :: rest =>
      if String.eqb k' k then (k', v) :: rest else (k', v') :: dict_set rest k v
  end.

(** [subprocess.CompletedProcess] with captured text streams. *)
Record CompletedProcess : Type := mk_completed {
  returncode : Z;
  stdout : string;
  stderr : string
}.

(** What Streamlit is asked to show. *)
Inductive ui_event : Type :=
  | StWarning (msg : string)
  | StInfo (msg : string)
  | StError (msg : string)
  | StSuccess (msg : string)
  | StHeader (msg : string)
  | StMarkdown (msg : string)
  | StHtml (html : string) (height : Z) (scrolling : bool).

(** [st.session_state]: an attribute that was never set is [None] here
    ([hasattr] is false). *)
Record session_state : Type := mk_session {
  test_url : option string;
  run_test : option bool
}.

(** The world the programs act on: the files (path to text), the processes
    spawned so far (their command lines, oldest first), what was shown, and
    the session state. *)
Record World : Type := mk_world {
  fs : gmap string string;
  spawned : list (list string);
  ui : list ui_event;
  session : session_state
}.

(** The environment: what the operating system, the auditor and the
    libraries answer. *)
Class Env : Type := {
  (** [tempfile.NamedTemporaryFile(delete=False, suffix=...)]: the path of
      the file that is created, or the exception raised. *)
  temp_name : gmap string string -> string -> outcome string;
  (** [subprocess.run(cmd, capture_output=True, text=True, timeout=t)]:
      spawns [cmd], which may change the files; gives the completed process
      or raises ([TimeoutExpired] after killing the child, [OSError], ...). *)
  run_process :
    list string -> option N -> gmap string string ->
    outcome CompletedProcess * gmap string string;
  (** [json.loads] *)
  json_loads : string -> outcome pyval;
  (** Lines 104-161 of [main]: the tiles, the embedded page and the issue
      list of a result.  They only talk to Streamlit: what they show, and
      the exception that stops them when the result does not have the
      expected shape. *)
  present_result : pyval -> list ui_event * outcome unit
}.

(** Computations: a state and exception monad over the world.  An
    exception keeps the changes made before it. *)
Definition M (A : Type) : Type := World -> outcome A * World.

Definition ret {A} (a : A) : M A := fun w => (Return a, w).

Definition bind {A B} (m : M A) (k : A -> M B) : M B :=
  fun w =>
    match m w with
    | (Return a, w') => k a w'
    | (Raise e, w') => (Raise e, w')
    end.

Definition raise {A} (e : exn) : M A := fun w => (Raise e, w).

(** [try: body / except ...]: [handler e] is the first clause that matches
    [e], if any. *)
Definition try_except {A} (body : M A) (handler : exn -> option (M A)) : M A :=
  fun w =>
    match body w with
    | (Return a, w') => (Return a, w')
    | (Raise e, w') =>
        match handler e with
        | Some h => h w'
        | None => (Raise e, w')
        end
    end.

Definition lift {A} (o : outcome A) : M A := fun w => (o, w).

Definition get_world : M World := fun w => (Return w, w).

Definition set_fs (f : gmap string string) : M unit :=
  fun w => (Return tt, {| fs := f; spawned := spawned w; ui := ui w; session := session w |}).

Definition set_session (s : session_state) : M unit :=
  fun w => (Return tt, {| fs := fs w; spawned := spawned w; ui := ui w; session := s |}).

(** An [st.*] call. *)
Definition show (e : ui_event) : M unit :=
  fun w => (Return tt, {| fs := fs w; spawned := spawned w; ui := (ui w ++ [e])%list;
                          session := session w |}).

Definition show_all (es : list ui_event) : M unit :=
  fun w => (Return tt, {| fs := fs w; spawned := spawned w; ui := (ui w ++ es)%list;
                          session := session w |}).

End Py.

Export Py.

#[global] Instance M_ret : MRet M := @ret.
#[global] Instance M_bind : MBind M := fun A B k m => bind m k.

Section Effects.
Context `{E : Env}.

(** [tempfile.NamedTemporaryFile(delete=False, suffix=suffix).name]: an
    empty file is created at the path the system picks. *)
Definition named_temporary_file (suffix : string) : M string :=
  w ← get_world;
  path ← lift (temp_name (fs w) suffix);
  set_fs (<[path := EmptyString]> (fs w));;
  mret path.

(** [subprocess.run(cmd, capture_output=True, text=True, timeout=timeout)] *)
Definition subprocess_run (cmd : list string) (timeout : option N)
  : M CompletedProcess :=
  fun w =>
    let '(r, fs') := run_process cmd timeout (fs w) in
    (r, {| fs := fs'; spawned := (spawned w ++ [cmd])%list; ui := ui w;
           session := session w |}).

(** [with open(path, "r", encoding="utf-8") as f: f.read()] *)
Definition read_text (path : string) : M string :=
  w ← get_world;
  match fs w !! path with
  | Some text => mret text
  | None =>
      raise (mk_exn FileNotFoundError
               ("[Errno 2] No such file or directory: '" ++ path ++ "'"))
  end.

(** [os.unlink(path)] *)
Definition os_unlink (path : string) : M unit :=
  w ← get_world;
  match fs w !! path with
  | Some _ => set_fs (delete path (fs w))
  | None =>
      raise (mk_exn FileNotFoundError
               ("[Errno 2] No such file or directory: '" ++ path ++ "'"))
  end.

End Effects.

(** The log of spawned processes, to say which processes a computation
    spawns. *)
Module Spawns.

(** [w'] has the spawn log of [w] followed by commands that satisfy [P]. *)
Definition extends (P : list string -> Prop) (w w' : World) : Prop :=
  exists new, spawned w' = (spawned w ++ new)%list /\ Forall P new.

(** Every command [m] spawns satisfies [P], however [m] ends. *)
Definition spawns_only {A} (P : list string -> Prop) (m : M A) : Prop :=
  forall w, extends P w (snd (m w)).

(** The world with more shown. *)
Definition shown (w : World) (es : list ui_event) : World :=
  {| fs := fs w; spawned := spawned w; ui := (ui w ++ es)%list; session := session w |}.

(** Everything [m] shows satisfies [Q], however [m] ends. *)
Definition shows_only {A} (Q : ui_event -> Prop) (m : M A) : Prop :=
  forall w, exists new, ui (snd (m w)) = (ui w ++ new)%list /\ Forall Q new.

End Spawns.

(* ===================================================================== *)
(** ** accessibility_tester.py: the file-mode front-end *)
(* ===================================================================== *)

Module AccessibilityTester.
Import PyStr PyRe.

(** [re.match(r'^https?://', u.strip()) is not None] *)
Definition is_valid_url (u : string) : bool :=
  re_match "^https?://" (strip u).

Definition charset_meta : string :=
  "<meta charset=" ++ dq ++ "UTF-8" ++ dq ++ ">".

Definition viewport_meta : string :=
  "<meta name=" ++ dq ++ "viewport" ++ dq ++ " content=" ++ dq
  ++ "width=device-width, initial-scale=1.0" ++ dq ++ ">".

Definition csp_meta : string :=
  "<meta http-equiv=" ++ dq ++ "Content-Security-Policy" ++ dq ++ " content=" ++ dq
  ++ "default-src * 'unsafe-inline' 'unsafe-eval' data: blob:;" ++ dq ++ ">".

Definition render_html (html : string) : string :=
  let html :=
    if negb (startswith (strip html) "<!DOCTYPE")
    then "<!DOCTYPE html>" ++ nl ++ html
    else html in
  let html :=
    if negb (str_in "<meta charset=" html)
    then replace html "<head>" ("<head>" ++ nl ++ "    " ++ charset_meta)
    else html in
  let html :=
    if negb (str_in "viewport" html)
    then replace html "<head>" ("<head>" ++ nl ++ "    " ++ viewport_meta)
    else html in
  let html :=
    if negb (str_in "Content-Security-Policy" html)
    then replace html "<head>" ("<head>" ++ nl ++ "    " ++ csp_meta)
    else html in
  html.

(** The four rules of [render_html], one by one, in the order of the
    source. *)
Definition add_doctype (html : string) : string :=
  if negb (startswith (strip html) "<!DOCTYPE")
  then "<!DOCTYPE html>" ++ nl ++ html
  else html.

Definition in_head (tag html : string) : string :=
  replace html "<head>" ("<head>" ++ nl ++ "    " ++ tag).

Definition add_charset (html : string) : string :=
  if negb (str_in "<meta charset=" html) then in_head charset_meta html else html.

Definition add_viewport (html : string) : string :=
  if negb (str_in "viewport" html) then in_head viewport_meta html else html.

Definition add_csp (html : string) : string :=
  if negb (str_in "Content-Security-Policy" html) then in_head csp_meta html else html.

Definition error_page : string :=
  "<html><body><h1>Error running test</h1></body></html>".

(** The command line [run_node_axe] builds. *)
Definition axe_cmd (url : string) (standards_list : list string)
    (device_type out_file : string) (keyboard_testing : bool) : list string :=
  ["node"; "a11y_audit.js"; url; join "," standards_list; device_type; out_file;
   if keyboard_testing then "true" else "false"].

(** A page is doctyped when the test of the first rule finds the doctype. *)
Definition doctyped (s : string) : Prop :=
  startswith (strip s) "<!DOCTYPE" = true.

(** One guarded rule: insert [tag] behind every [<head>] unless [marker]
    occurs somewhere. *)
Definition rule (marker tag html : string) : string :=
  if negb (str_in marker html) then in_head tag html else html.

(** A page is settled when it is doctyped and, if it has a [<head>], has
    the three markers. *)
Definition settled (s : string) : Prop :=
  doctyped s /\
  (str_in "<head>" s = true ->
   str_in "<meta charset=" s = true /\ str_in "viewport" s = true
   /\ str_in "Content-Security-Policy" s = true).

(** The page of the scenario, and what the rules make of it one after the
    other. *)
Definition page0 : string := "<html><head></head><body>x</body></html>".

Definition page1 : string := "<!DOCTYPE html>" ++ nl ++ page0.

Definition page2 : string :=
  "<!DOCTYPE html>" ++ nl ++ "<html><head>" ++ nl ++ "    " ++ charset_meta
  ++ "</head><body>x</body></html>".

Definition page3 : string :=
  "<!DOCTYPE html>" ++ nl ++ "<html><head>" ++ nl ++ "    " ++ viewport_meta
  ++ nl ++ "    " ++ charset_meta ++ "</head><body>x</body></html>".

Definition page4 : string :=
  "<!DOCTYPE html>" ++ nl ++ "<html><head>" ++ nl ++ "    " ++ csp_meta
  ++ nl ++ "    " ++ viewport_meta
  ++ nl ++ "    " ++ charset_meta ++ "</head><body>x</body></html>".

(** An embedded page is fit for the viewer when it is settled; any other
    event is. *)
Definition fit_for_viewer (e : ui_event) : Prop :=
  match e with
  | StHtml html _ _ => settled html
  | _ => True
  end.

(** What the three rules insert behind [<head>], outermost first. *)
Definition three_tags : string :=
  nl ++ "    " ++ csp_meta ++ nl ++ "    " ++ viewport_meta
  ++ nl ++ "    " ++ charset_meta.

(** The standards the four checkboxes stand for, in the order of the page. *)
Definition all_standards : list string :=
  ["WCAG 2.0A"; "WCAG 2.0AA"; "Best-practice"; "Aria"].

(** The messages of the page script after a run. *)
Definition desktop_note : string :=
  "**Desktop View** - Hover over red-outlined elements to see accessibility issues".

Definition mobile_note : string :=
  "**Mobile View** - Hover over red-outlined elements to see accessibility issues".

Definition completed_msg : string :=
  "✅ Accessibility audit completed! Hover over highlighted elements for detailed issue information.".

Section Program.
Context `{E : Env}.

Definition run_node_axe (url : string) (standards_list : list string)
    (device_type : string) (keyboard_testing : bool) : M string :=
  out_file ← named_temporary_file ".html";
  let standards_str := join "," standards_list in
  let keyboard_flag := if keyboard_testing then "true" else "false" in
  let cmd := ["node"; "a11y_audit.js"; url; standards_str; device_type;
              out_file; keyboard_flag] in
  result ← subprocess_run cmd None;
  if negb (returncode result =? 0)%Z then
    show (StError ("Error running accessibility test: " ++ stderr result));;
    mret error_page
  else
    html ← read_text out_file;
    os_unlink out_file;;
    mret html.

(** The state of the widgets when the page script runs. *)
Record widgets : Type := mk_widgets {
  w_url : string;
  w_wcag2a : bool;
  w_wcag2aa : bool;
  w_best_practice : bool;
  w_aria : bool;
  w_keyboard_testing : bool;
  (** the "Run Accessibility Audit" button, when it is drawn *)
  w_button : bool
}.

Definition selected_standards (i : widgets) : list string :=
  ((if w_wcag2a i then ["WCAG 2.0A"] else [])
   ++ (if w_wcag2aa i then ["WCAG 2.0AA"] else [])
   ++ (if w_best_practice i then ["Best-practice"] else [])
   ++ (if w_aria i then ["Aria"] else []))%list.

Definition select_standard_msg : string :=
  "Please select at least one testing standard above to run the audit.".

Definition bad_url_msg : string :=
  "Please enter a valid URL starting with http:// or https://".

(** The page script from the collection of the standards on (lines 78 to
    120); the static text above it is left out. *)
Definition page (i : widgets) : M unit :=
  let url := w_url i in
  let selected_standards := selected_standards i in
  (if negb (is_empty url) && negb (is_valid_url url)
   then show (StWarning bad_url_msg)
   else mret tt);;
  if negb (is_empty url) && is_valid_url url then
    match selected_standards with
    | [] => show (StInfo select_standard_msg)
    | _ :: _ =>
        show (StInfo ("**Selected standards:** " ++ join ", " selected_standards));;
        if w_button i then
          desktop_html ← run_node_axe url selected_standards "desktop"
                           (w_keyboard_testing i);
          mobile_html ← run_node_axe url selected_standards "mobile"
                          (w_keyboard_testing i);
          show (StMarkdown "**Desktop View** - Hover over red-outlined elements to see accessibility issues");;
          show (StHtml (render_html desktop_html) 700 true);;
          show (StMarkdown "**Mobile View** - Hover over red-outlined elements to see accessibility issues");;
          show (StHtml (render_html mobile_html) 700 true);;
          show (StSuccess "✅ Accessibility audit completed! Hover over highlighted elements for detailed issue information.")
        else mret tt
    end
  else mret tt.

End Program.
End AccessibilityTester.

(* ===================================================================== *)
(** ** streamlit_a11y_app.py: the JSON-mode front-end *)
(* ===================================================================== *)

Module StreamlitA11yApp.
Import PyStr.

Definition node_script : string := "./streamlit_a11y_checker.js".

Definition red_block (text : string) : string :=
  "<div style=" ++ dq ++ "padding: 20px; color: red;" ++ dq ++ ">" ++ text ++ "</div>".

(** The three records the method builds itself. *)
Definition failed_record (stderr : string) : pyval :=
  PDict [("success", PBool false);
         ("error", PStr ("Node.js script failed: " ++ stderr));
         ("streamlitHtml", PStr (red_block ("Error: " ++ stderr)))].

Definition timeout_record : pyval :=
  PDict [("success", PBool false);
         ("error", PStr "Request timed out");
         ("streamlitHtml", PStr (red_block "Request timed out after 60 seconds"))].

Definition exception_record (msg : string) : pyval :=
  PDict [("success", PBool false);
         ("error", PStr msg);
         ("streamlitHtml", PStr (red_block ("Error: " ++ msg)))].

(** What the two [except] clauses make of an exception. *)
Definition handled (e : exn) : option pyval :=
  if is_TimeoutExpired e then Some timeout_record
  else if is_Exception e then Some (exception_record (exn_str e))
  else None.

(** The command line of the JSON-mode auditor and the world right after it
    was spawned. *)
Definition check_cmd (url : string) : list string := ["node"; node_script; url].

Definition spawned_check (w : World) (url : string) (files : gmap string string)
  : World :=
  {| fs := files; spawned := (spawned w ++ [check_cmd url])%list; ui := ui w;
     session := session w |}.

(** A result that holds the error string and a fallback fragment in which
    that string occurs. *)
Definition has_fallback_html (result : pyval) (error : string) : Prop :=
  get_item result "error" = Some (PStr error)
  /\ exists html, get_item result "streamlitHtml" = Some (PStr html)
                  /\ str_in error html = true.

(** A pending test always has a non-empty URL. *)
Definition session_ok (s : session_state) : Prop :=
  run_test s = Some true -> exists u, test_url s = Some u /\ u <> EmptyString.

(** *** The filter of the issue list in [main] (lines 140 to 144) *)

(** [v[k]] for a string key [k] (a key without quotes or escapes, so that
    its [repr] is the key between single quotes). *)
Definition subscript (v : pyval) (k : string) : outcome pyval :=
  match v with
  | PDict d =>
      match dict_get d k with
      | Some x => Return x
      | None => Raise (mk_exn KeyError ("'" ++ k ++ "'"))
      end
  | PList _ =>
      Raise (mk_exn TypeError "list indices must be integers or slices, not str")
  | PStr _ => Raise (mk_exn TypeError "string indices must be integers, not 'str'")
  | PNone => Raise (mk_exn TypeError "'NoneType' object is not subscriptable")
  | PBool _ => Raise (mk_exn TypeError "'bool' object is not subscriptable")
  | PInt _ => Raise (mk_exn TypeError "'int' object is not subscriptable")
  | PFloat _ => Raise (mk_exn TypeError "'float' object is not subscriptable")
  end.

(** The elements a [for] sees in [v]: the items of a list, the keys of a
    dict, the characters of a string. *)
Definition iterate (v : pyval) : outcome (list pyval) :=
  match v with
  | PList l => Return l
  | PDict d => Return (map (fun kv => PStr (fst kv)) d)
  | PStr s => Return (map PStr (chars s))
  | PNone => Raise (mk_exn TypeError "'NoneType' object is not iterable")
  | PBool _ => Raise (mk_exn TypeError "'bool' object is not iterable")
  | PInt _ => Raise (mk_exn TypeError "'int' object is not iterable")
  | PFloat _ => Raise (mk_exn TypeError "'float' object is not iterable")
  end.

(** [v == s] for a string [s]: only an equal string is equal to it. *)
Definition eq_str (v : pyval) (s : string) : bool :=
  match v with
  | PStr t => String.eqb t s
  | _ => false
  end.

(** [filter_map], from the label of the select box to the issue type. *)
Definition filter_map : list (string * string) :=
  [("Errors", "error"); ("Warnings", "warning"); ("Notices", "notice")].

Fixpoint lookup_label (m : list (string * string)) (k : string) : option string :=
  match m with
  | [] => None
  | (k', v) :: rest => if String.eqb k' k then Some v else lookup_label rest k
  end.

(** [[i for i in items if i['type'] == filter_map[filter_type]]]: for each
    item the left operand of [==] is evaluated first, then the right one. *)
Fixpoint keep_type (filter_type : string) (items : list pyval)
  : outcome (list pyval) :=
  match items with
  | [] => Return []
  | i :: rest =>
      match subscript i "type" with
      | Raise e => Raise e
      | Return t =>
          match lookup_label filter_map filter_type with
          | None => Raise (mk_exn KeyError ("'" ++ filter_type ++ "'"))
          | Some wanted =>
              match keep_type filter_type rest with
              | Raise e => Raise e
              | Return kept => Return (if eq_str t wanted then i :: kept else kept)
              end
          end
      end
  end.

(** [filtered_issues] after lines 141 to 144, for the summary of a result
    and the label chosen in the select box. *)
Definition filtered_issues (summary : pyval) (filter_type : string)
  : outcome pyval :=
  match subscript summary "issues" with
  | Raise e => Raise e
  | Return issues =>
      if negb (String.eqb filter_type "All") then
        match iterate issues with
        | Raise e => Raise e
        | Return items =>
            match keep_type filter_type items with
            | Raise e => Raise e
            | Return kept => Return (PList kept)
            end
        end
      else Return issues
  end.

(** An issue whose type is [wanted]. *)
Definition has_type (wanted : string) (i : pyval) : bool :=
  match get_item i "type" with
  | Some t => eq_str t wanted
  | None => false
  end.

(** An issue that is a dict with a [type] entry. *)
Definition typed_issue (i : pyval) : Prop :=
  exists t, get_item i "type" = Some t.

Section Program.
Context `{E : Env}.

Definition run_accessibility_check (url : string) : M pyval :=
  try_except
    (result ← subprocess_run ["node"; node_script; url] (Some 60%N);
     if (returncode result =? 0)%Z
     then lift (json_loads (stdout result))
     else mret (failed_record (stderr result)))
    (fun e =>
       if is_TimeoutExpired e then Some (mret timeout_record)
       else if is_Exception e then Some (mret (exception_record (exn_str e)))
       else None).

Definition enter_url_msg : string := "Please enter a URL".

Definition idle_msg : string :=
  "👈 Enter a URL in the sidebar and click 'Run Accessibility Check' to begin".

(** [main]: [url] is the value of the text input and [button] tells whether
    the "Run Accessibility Check" button was pressed for this run.  The
    titles and the static help text are left out. *)
Definition main (url : string) (button : bool) : M unit :=
  (if button then
     if negb (is_empty url) then
       set_session {| test_url := Some url; run_test := Some true |}
     else show (StError enter_url_msg)
   else mret tt);;
  w ← get_world;
  match run_test (session w) with
  | Some true =>
      test_url ← match test_url (session w) with
                 | Some u => mret u
                 | None => raise (mk_exn AttributeError "test_url")
                 end;
      show (StHeader ("Testing: " ++ test_url));;
      result ← run_accessibility_check test_url;
      show_all (fst (present_result result));;
      lift (snd (present_result result));;
      w' ← get_world;
      set_session {| test_url := Py.test_url (session w'); run_test := Some false |}
  | _ => show (StInfo idle_msg)
  end.

(** The two halves of [main]: the button in the sidebar, and the pending
    test in the main area. *)
Definition sidebar (url : string) (button : bool) : M unit :=
  if button then
    if negb (is_empty url)
    then set_session {| test_url := Some url; run_test := Some true |}
    else show (StError enter_url_msg)
  else mret tt.

Definition pending : M unit :=
  w ← get_world;
  match run_test (session w) with
  | Some true =>
      test_url ← match test_url (session w) with
                 | Some u => mret u
                 | None => raise (mk_exn AttributeError "test_url")
                 end;
      show (StHeader ("Testing: " ++ test_url));;
      result ← run_accessibility_check test_url;
      show_all (fst (present_result result));;
      lift (snd (present_result result));;
      w' ← get_world;
      set_session {| test_url := Py.test_url (session w'); run_test := Some false |}
  | _ => show (StInfo idle_msg)
  end.

End Program.
End StreamlitA11yApp.

(* ===================================================================== *)
(** ** A simulated environment, to run the programs on examples *)
(* ===================================================================== *)

Module Sim.
Import PyStr.

(** *** A JSON decoder

    It follows the grammar [json.loads] accepts: the four blanks, the
    literals (with [NaN], [Infinity] and [-Infinity]), numbers, strings
    with their escapes, arrays and objects; a repeated key keeps its last
    value.  Every error is a [JSONDecodeError]; nesting deeper than the
    counter allows is a [RecursionError]. *)

Definition decode_error (msg : string) : exn := mk_exn JSONDecodeError msg.

Definition blank (c : ascii) : bool :=
  ((byte c =? 32) || (byte c =? 9) || (byte c =? 10) || (byte c =? 13))%N.

Fixpoint skip_blanks (s : string) : string :=
  match s with
  | String c s' => if blank c then skip_blanks s' else s
  | EmptyString => s
  end.

Definition digit (c : ascii) : bool := ((48 <=? byte c) && (byte c <=? 57))%N.

Definition hex_value (c : ascii) : option N :=
  let b := byte c in
  if ((48 <=? b) && (b <=? 57))%N then Some (b - 48)%N
  else if ((65 <=? b) && (b <=? 70))%N then Some (b - 55)%N
  else if ((97 <=? b) && (b <=? 102))%N then Some (b - 87)%N
  else None.

Definition hex4 (a b c d : ascii) : option N :=
  match hex_value a, hex_value b, hex_value c, hex_value d with
  | Some x, Some y, Some z, Some t => Some (((x * 16 + y) * 16 + z) * 16 + t)%N
  | _, _, _, _ => None
  end.

Definition chr (n : N) : string := String (ascii_of_N n) EmptyString.

(** The UTF-8 bytes of a code point. *)
Definition utf8 (cp : N) : string :=
  (if cp <? 128 then chr cp
   else if cp <? 2048 then chr (192 + cp / 64) ++ chr (128 + cp mod 64)
   else if cp <? 65536 then
     chr (224 + cp / 4096) ++ chr (128 + (cp / 64) mod 64) ++ chr (128 + cp mod 64)
   else
     chr (240 + cp / 262144) ++ chr (128 + (cp / 4096) mod 64)
     ++ chr (128 + (cp / 64) mod 64) ++ chr (128 + cp mod 64))%N.

(** The characters of a string literal behind its opening quote, up to the
    closing quote: the text and what follows the literal. *)
Fixpoint scan_string (s : string) : option (string * string) :=
  match s with
  | EmptyString => None
  | String c s1 =>
      if (byte c =? 34)%N then Some (EmptyString, s1)
      else if (byte c <? 32)%N then None
      else if (byte c =? 92)%N then
        match s1 with
        | EmptyString => None
        | String e s2 =>
            let simple (t : string) :=
              match scan_string s2 with
              | Some (text, rest) => Some (t ++ text, rest)
              | None => None
              end in
            if (byte e =? 34)%N then simple dq
            else if (byte e =? 92)%N then simple (chr 92)
            else if (byte e =? 47)%N then simple "/"
            else if (byte e =? 98)%N then simple (chr 8)
            else if (byte e =? 102)%N then simple (chr 12)
            else if (byte e =? 110)%N then simple nl
            else if (byte e =? 114)%N then simple (chr 13)
            else if (byte e =? 116)%N then simple (chr 9)
            else if (byte e =? 117)%N then
              match s2 with
              | String h1 (String h2 (String h3 (String h4 s6))) =>
                  match hex4 h1 h2 h3 h4 with
                  | None => None
                  | Some hi =>
                      let single :=
                        match scan_string s6 with
                        | Some (text, rest) => Some (utf8 hi ++ text, rest)
                        | None => None
                        end in
                      if ((55296 <=? hi) && (hi <=? 56319))%N then
                        match s6 with
                        | String b (String u (String l1 (String l2 (String l3 (String l4 s12))))) =>
                            if ((byte b =? 92) && (byte u =? 117))%N then
                              match hex4 l1 l2 l3 l4 with
                              | Some lo =>
                                  if ((56320 <=? lo) && (lo <=? 57343))%N then
                                    match scan_string s12 with
                                    | Some (text, rest) =>
                                        Some (utf8 (65536 + (hi - 55296) * 1024 + (lo - 56320))%N
                                              ++ text, rest)
                                    | None => None
                                    end
                                  else single
                              | None => single
                              end
                            else single
                        | _ => single
                        end
                      else single
                  end
              | _ => None
              end
            else None
        end
      else
        match scan_string s1 with
        | Some (text, rest) => Some (String c text, rest)
        | None => None
        end
  end.

Fixpoint take_digits (s : string) : string * string :=
  match s with
  | String c s' =>
      if digit c then let '(d, rest) := take_digits s' in (String c d, rest)
      else (EmptyString, s)
  | EmptyString => (EmptyString, s)
  end.

Fixpoint digits_value (acc : Z) (d : string) : Z :=
  match d with
  | EmptyString => acc
  | String c d' => digits_value (acc * 10 + Z.of_N (byte c - 48)) d'
  end.

(** A number: an optional minus sign, then 0 or a digit sequence that
    starts with 1 to 9, then an optional fraction (a dot and digits) and an
    optional exponent (e or E, a sign, digits); an integer when it has
    neither fraction nor exponent. *)
Definition scan_number (s : string) : option (pyval * string) :=
  let '(sign, s1) :=
    match s with
    | String c s' => if (byte c =? 45)%N then ("-", s') else (EmptyString, s)
    | EmptyString => (EmptyString, s)
    end in
  let '(int_part, s2) :=
    match s1 with
    | String c s' => if (byte c =? 48)%N then ("0", s') else take_digits s1
    | EmptyString => (EmptyString, s1)
    end in
  if is_empty int_part then None
  else
    let '(frac, s3) :=
      match s2 with
      | String c s' =>
          if (byte c =? 46)%N then
            let '(d, rest) := take_digits s' in
            if is_empty d then (EmptyString, s2) else ("." ++ d, rest)
          else (EmptyString, s2)
      | EmptyString => (EmptyString, s2)
      end in
    let '(expo, s4) :=
      match s3 with
      | String c s' =>
          if ((byte c =? 101) || (byte c =? 69))%N then
            let '(sg, s'') :=
              match s' with
              | String g t =>
                  if ((byte g =? 43) || (byte g =? 45))%N
                  then (String g EmptyString, t) else (EmptyString, s')
              | EmptyString => (EmptyString, s')
              end in
            let '(d, rest) := take_digits s'' in
            if is_empty d then (EmptyString, s3)
            else (String c EmptyString ++ sg ++ d, rest)
          else (EmptyString, s3)
      | EmptyString => (EmptyString, s3)
      end in
    if is_empty frac && is_empty expo
    then Some (PInt (if is_empty sign then digits_value 0 int_part
                     else - digits_value 0 int_part), s4)
    else Some (PFloat (sign ++ int_part ++ frac ++ expo), s4).

Definition too_deep : exn :=
  mk_exn RecursionError "maximum recursion depth exceeded".

(** A value at the head of [s]: the value and what follows it. *)
Fixpoint parse_value (fuel : nat) (s : string) : outcome (pyval * string) :=
  match fuel with
  | O => Raise too_deep
  | S n =>
      match s with
      | EmptyString => Raise (decode_error "Expecting value")
      | String c s' =>
          if (byte c =? 34)%N then
            match scan_string s' with
            | Some (text, rest) => Return (PStr text, rest)
            | None => Raise (decode_error "Invalid string")
            end
          else if (byte c =? 123)%N then
            match skip_blanks s' with
            | String c' r =>
                if (byte c' =? 125)%N then Return (PDict [], r)
                else
                  match parse_members n [] (skip_blanks s') with
                  | Return (d, rest) => Return (PDict d, rest)
                  | Raise e => Raise e
                  end
            | EmptyString => Raise (decode_error "Expecting property name")
            end
          else if (byte c =? 91)%N then
            match skip_blanks s' with
            | String c' r =>
                if (byte c' =? 93)%N then Return (PList [], r)
                else
                  match parse_elems n [] (skip_blanks s') with
                  | Return (l, rest) => Return (PList l, rest)
                  | Raise e => Raise e
                  end
            | EmptyString => Raise (decode_error "Expecting value")
            end
          else if startswith s "null" then Return (PNone, drop 4 s)
          else if startswith s "true" then Return (PBool true, drop 4 s)
          else if startswith s "false" then Return (PBool false, drop 5 s)
          else
            match scan_number s with
            | Some r => Return r
            | None =>
                if startswith s "NaN" then Return (PFloat "nan", drop 3 s)
                else if startswith s "Infinity" then Return (PFloat "inf", drop 8 s)
                else if startswith s "-Infinity" then Return (PFloat "-inf", drop 9 s)
                else Raise (decode_error "Expecting value")
            end
      end
  end

(** The elements of an array, from the head of an element on. *)
with parse_elems (fuel : nat) (acc : list pyval) (s : string)
  : outcome (list pyval * string) :=
  match fuel with
  | O => Raise too_deep
  | S n =>
      match parse_value n s with
      | Raise e => Raise e
      | Return (v, r) =>
          match skip_blanks r with
          | String c r' =>
              if (byte c =? 44)%N then parse_elems n (acc ++ [v])%list (skip_blanks r')
              else if (byte c =? 93)%N then Return ((acc ++ [v])%list, r')
              else Raise (decode_error "Expecting ',' delimiter")
          | EmptyString => Raise (decode_error "Expecting ',' delimiter")
          end
      end
  end

(** The members of an object, from the head of a key on. *)
with parse_members (fuel : nat) (acc : list (string * pyval)) (s : string)
  : outcome (list (string * pyval) * string) :=
  match fuel with
  | O => Raise too_deep
  | S n =>
      match s with
      | String q s' =>
          if (byte q =? 34)%N then
            match scan_string s' with
            | None => Raise (decode_error "Invalid string")
            | Some (key, r) =>
                match skip_blanks r with
                | String c r' =>
                    if (byte c =? 58)%N then
                      match parse_value n (skip_blanks r') with
                      | Raise e => Raise e
                      | Return (v, r2) =>
                          match skip_blanks r2 with
                          | String c2 r3 =>
                              if (byte c2 =? 44)%N
                              then parse_members n (dict_set acc key v) (skip_blanks r3)
                              else if (byte c2 =? 125)%N
                              then Return (dict_set acc key v, r3)
                              else Raise (decode_error "Expecting ',' delimiter")
                          | EmptyString => Raise (decode_error "Expecting ',' delimiter")
                          end
                      end
                    else Raise (decode_error "Expecting ':' delimiter")
                | EmptyString => Raise (decode_error "Expecting ':' delimiter")
                end
            end
          else Raise (decode_error "Expecting property name enclosed in double quotes")
      | EmptyString =>
          Raise (decode_error "Expecting property name enclosed in double quotes")
      end
  end.

(** [json.loads(s)]: one value between blanks, and nothing else. *)
Definition loads (s : string) : outcome pyval :=
  match parse_value (S (len s)) (skip_blanks s) with
  | Raise e => Raise e
  | Return (v, rest) =>
      if is_empty (skip_blanks rest) then Return v
      else Raise (decode_error "Extra data")
  end.

(** *** A simulated auditor

    Either [node] is not installed, or the auditor runs for some seconds,
    possibly writes its report to the path given as sixth word of the
    command line, and exits. *)
Inductive auditor : Type :=
  | NotInstalled
  | Runs (seconds : N) (exit_code : Z) (out err : string) (report : option string).

Definition sim_run_process (a : auditor) (cmd : list string) (timeout : option N)
    (files : gmap string string) : outcome CompletedProcess * gmap string string :=
  match a with
  | NotInstalled =>
      (Raise (mk_exn FileNotFoundError "[Errno 2] No such file or directory: 'node'"),
       files)
  | Runs seconds exit_code out err report =>
      let completed :=
        (Return (mk_completed exit_code out err),
         match report with
         | Some html => <[nth 5 cmd EmptyString := html]> files
         | None => files
         end) in
      match timeout with
      | Some t =>
          if (t <? seconds)%N
          then (Raise (mk_exn TimeoutExpired "Command timed out"), files)
          else completed
      | None => completed
      end
  end.

(** Temporary files are numbered by the number of files there are. *)
Definition sim_temp_name (files : gmap string string) (suffix : string)
  : outcome string :=
  Return ("/tmp/tmp" ++ pretty (size files) ++ suffix).

(** A presentation that shows a failed result as the source does (the
    error line, then the fallback page if the result has one) and of any
    other result only the embedded page. *)
Definition sim_present (v : pyval) : list ui_event * outcome unit :=
  match get_item v "success" with
  | None => ([], Raise (mk_exn KeyError "'success'"))
  | Some (PBool false) =>
      match get_item v "error" with
      | Some (PStr e) =>
          (StError ("Failed to check accessibility: " ++ e)
           :: match get_item v "streamlitHtml" with
              | Some (PStr h) => [StHtml h 200 false]
              | _ => []
              end, Return tt)
      | _ => ([], Raise (mk_exn KeyError "'error'"))
      end
  | Some _ =>
      match get_item v "streamlitHtml" with
      | Some (PStr h) => ([StHtml h 800 true], Return tt)
      | _ => ([], Raise (mk_exn KeyError "'streamlitHtml'"))
      end
  end.

Definition sim_env (a : auditor) : Env :=
  {| temp_name := sim_temp_name;
     run_process := sim_run_process a;
     json_loads := loads;
     present_result := sim_present |}.

Definition fresh_world : World :=
  {| fs := ∅; spawned := []; ui := [];
     session := {| test_url := None; run_test := None |} |}.

(** The standard output of the scenario: the JSON text
    [{"success": false, "error": "boom"}]. *)
Definition boom_stdout : string :=
  "{" ++ dq ++ "success" ++ dq ++ ": false, "
  ++ dq ++ "error" ++ dq ++ ": " ++ dq ++ "boom" ++ dq ++ "}".

Definition boom_payload : pyval :=
  PDict [("success", PBool false); ("error", PStr "boom")].

Definition boom_auditor : auditor := Runs 2 0 boom_stdout EmptyString None.

(** An auditor that exits with 0 but removes the file it was to write. *)
Definition sweeping_env : Env :=
  {| temp_name := sim_temp_name;
     run_process := fun cmd _ files =>
       (Return (mk_completed 0 EmptyString EmptyString),
        delete (nth 5 cmd EmptyString) files);
     json_loads := loads;
     present_result := sim_present |}.

(** A presentation that fails on every result. *)
Definition failing_present_env (a : auditor) : Env :=
  {| temp_name := sim_temp_name;
     run_process := sim_run_process a;
     json_loads := loads;
     present_result := fun _ => ([], Raise (mk_exn KeyError "'summary'")) |}.

(** An environment in which the user interrupts the auditor. *)
Definition interrupted_env : Env :=
  {| temp_name := sim_temp_name;
     run_process := fun _ _ files => (Raise (mk_exn KeyboardInterrupt EmptyString), files);
     json_loads := loads;
     present_result := sim_present |}.

(** Summaries to run the filter on. *)
Definition sample_issue (type : string) : pyval :=
  PDict [("type", PStr type); ("message", PStr "m")].

Definition sample_summary : pyval :=
  PDict [("totalIssues", PInt 3);
         ("issues", PList [sample_issue "error"; sample_issue "notice";
                           sample_issue "error"])].

Definition broken_summary : pyval :=
  PDict [("issues", PList [sample_issue "error"; PDict [("message", PStr "m")];
                           sample_issue "notice"])].

(** A ticked box, a valid URL and the button pressed. *)
Definition started : AccessibilityTester.widgets :=
  AccessibilityTester.mk_widgets "https://example.com" true false false false false true.


Definition failing : Env := sim_env (Runs 1 1 EmptyString "boom" None).

(** The world after a run of [main] in which the presentation failed. *)
Definition after_failed_presentation : World :=
  {| fs := ∅;
     spawned := [StreamlitA11yApp.check_cmd "https://example.com"];
     ui := [StHeader "Testing: https://example.com"];
     session := {| test_url := Some "https://example.com"; run_test := Some true |} |}.

End Sim.

(* ===================================================================== *)
(** ** Facts about the string operations *)
(* ===================================================================== *)

Module PyStrFacts.
Import PyStr.

Lemma app_assoc_s (a b c : string) : (a ++ b) ++ c = a ++ (b ++ c).
Proof. induction a as [|x a IH]; simpl; [reflexivity | now rewrite IH]. Qed.

Lemma app_empty_r (a : string) : a ++ EmptyString = a.
Proof. induction a as [|x a IH]; simpl; [reflexivity | now rewrite IH]. Qed.

Lemma len_app (a b : string) : len (a ++ b) = len a + len b.
Proof. induction a as [|x a IH]; simpl; [reflexivity | simpl in *; now rewrite IH]. Qed.

Lemma len_drop (n : nat) (s : string) : len (drop n s) = len s - n.
Proof.
  revert s; induction n as [|n IH]; intros [|c s]; simpl; try lia.
  apply IH.
Qed.

Lemma drop_app (p s : string) : drop (len p) (p ++ s) = s.
Proof. induction p as [|c p IH]; simpl; [now destruct s | exact IH]. Qed.

Lemma startswith_app (p r : string) : startswith (p ++ r) p = true.
Proof.
  induction p as [|c p IH]; simpl; [reflexivity |].
  now rewrite Ascii.eqb_refl, IH.
Qed.

Lemma startswith_split (s p : string) :
  startswith s p = true -> s = p ++ drop (len p) s.
Proof.
  revert s; induction p as [|a p IH]; intros s H; simpl in *.
  - now destruct s.
  - destruct s as [|b s]; [discriminate |].
    apply andb_true_iff in H as [Hab Hs].
    apply Ascii.eqb_eq in Hab; subst b.
    simpl. f_equal. now apply IH.
Qed.

Lemma startswith_app_l (a r p : string) :
  startswith a p = true -> startswith (a ++ r) p = true.
Proof.
  intros H. rewrite (startswith_split _ _ H), app_assoc_s.
  apply startswith_app.
Qed.

(** If [p] starts [a ++ b] but not [a], then [a] is a proper prefix of [p]
    and [b] starts with the remainder. *)
Lemma startswith_straddle (a b p : string) :
  startswith (a ++ b) p = true -> startswith a p = false ->
  startswith b (drop (len a) p) = true /\ len a < len p.
Proof.
  revert p; induction a as [|c a IH]; intros p H1 H2; simpl in *.
  - destruct p; [discriminate |]. split; [exact H1 | simpl; lia].
  - destruct p as [|d p]; [discriminate |]. simpl in *.
    apply andb_true_iff in H1 as [Hdc H1]. rewrite Hdc in H2. simpl in H2.
    destruct (IH p H1 H2) as [H3 H4]. split; [exact H3 |].
    simpl in *; lia.
Qed.

Lemma str_in_here (x s : string) : startswith s x = true -> str_in x s = true.
Proof. intros H. destruct s; simpl in *; now rewrite H. Qed.

Lemma str_in_cons (x : string) (c : ascii) (s : string) :
  str_in x s = true -> str_in x (String c s) = true.
Proof. intros H. simpl. rewrite H. apply orb_true_r. Qed.

Lemma str_in_app_r (x p s : string) :
  str_in x s = true -> str_in x (p ++ s) = true.
Proof. intros H. induction p as [|c p IH]; [exact H | now apply str_in_cons]. Qed.

Lemma str_in_app_l (x p s : string) :
  str_in x p = true -> str_in x (p ++ s) = true.
Proof.
  induction p as [|c p IH]; simpl; intros H.
  - rewrite orb_false_r in H. destruct x; [|discriminate]. now destruct s.
  - apply orb_true_iff in H as [H | H].
    + change (String c (p ++ s)) with (String c p ++ s).
      rewrite (startswith_app_l _ s _ H). reflexivity.
    + rewrite (IH H). apply orb_true_r.
Qed.

Lemma str_in_cons_inv (x : string) (c : ascii) (s : string) :
  str_in x (String c s) = true ->
  startswith (String c s) x = true \/ str_in x s = true.
Proof. simpl. intros H. apply orb_true_iff in H. exact H. Qed.

Lemma clash_sym (a b : string) : clash a b = clash b a.
Proof. unfold clash. apply andb_comm. Qed.

Lemma clash_app (a b r : string) :
  clash a b = true -> startswith (a ++ r) b = false.
Proof.
  unfold clash. revert a; induction b as [|c b IH]; intros a H.
  - destruct a; discriminate.
  - destruct a as [|d a]; simpl in *; [discriminate |].
    destruct (Ascii.eqb c d) eqn:Hcd; [| reflexivity].
    simpl. apply IH.
    apply Ascii.eqb_eq in Hcd; subst d.
    now rewrite Ascii.eqb_refl in H.
Qed.

Lemma suffixes_clash_drop (x y : string) (k : nat) :
  suffixes_clash x y = true -> k < len x -> clash (drop k x) y = true.
Proof.
  revert k; induction x as [|c x IH]; intros k H Hk.
  - simpl in Hk; lia.
  - simpl in H. apply andb_true_iff in H as [H1 H2].
    destruct k as [|k]; [exact H1 |].
    simpl. apply IH; [exact H2 | simpl in Hk; lia].
Qed.

(** An occurrence of [x] in [y ++ rest] lies in [rest] when no suffix of
    [y] can begin it. *)
Lemma str_in_behind (x y rest : string) :
  suffixes_clash y x = true -> str_in x (y ++ rest) = true -> str_in x rest = true.
Proof.
  induction y as [|c y IH]; simpl; intros H1 H2; [exact H2 |].
  apply andb_true_iff in H1 as [Hc Hs].
  change (String c (y ++ rest)) with (String c y ++ rest) in H2.
  rewrite (clash_app _ _ rest Hc) in H2. simpl in H2.
  now apply IH.
Qed.

(** *** [replace] with a non-empty [old] *)

Section Replace.
Variables (old new : string).
Hypothesis old_nonempty : is_empty old = false.

Lemma old_split : exists a o, old = String a o.
Proof. destruct old as [|a o]; [discriminate | eauto]. Qed.

Lemma replace_from_enough (n m : nat) (s : string) :
  len s <= n -> len s <= m ->
  replace_from n old new s = replace_from m old new s.
Proof.
  revert m s; induction n as [|n IH]; intros m s Hn Hm.
  - destruct s; [| simpl in Hn; lia]. now destruct m.
  - destruct m as [|m].
    + destruct s; [reflexivity | simpl in Hm; lia].
    + simpl. destruct s as [|c s]; [reflexivity |].
      assert (Hs : len s <= n /\ len s <= m) by (simpl in *; lia).
      destruct (startswith (String c s) old).
      * f_equal. destruct old_split as (a & o & Ho).
        apply IH; rewrite len_drop, Ho; simpl in *; lia.
      * f_equal. apply IH; tauto.
Qed.

Lemma replace_unfold (s : string) :
  replace s old new = replace_from (len s) old new s.
Proof. destruct old_split as (a & o & Ho). rewrite Ho. reflexivity. Qed.

Lemma replace_nil : replace EmptyString old new = EmptyString.
Proof. rewrite replace_unfold. reflexivity. Qed.

Lemma replace_hit (s : string) :
  s <> EmptyString -> startswith s old = true ->
  replace s old new = new ++ replace (drop (len old) s) old new.
Proof.
  intros Hs H. rewrite !replace_unfold. destruct s as [|c s]; [congruence |].
  change (len (String c s)) with (S (len s)).
  cbn [replace_from]. rewrite H. f_equal.
  destruct old_split as (a & o & Ho).
  apply replace_from_enough; rewrite ?len_drop, ?Ho; simpl; lia.
Qed.

Lemma replace_miss (c : ascii) (s : string) :
  startswith (String c s) old = false ->
  replace (String c s) old new = String c (replace s old new).
Proof.
  intros H. rewrite !replace_unfold.
  change (len (String c s)) with (S (len s)).
  cbn [replace_from]. rewrite H. reflexivity.
Qed.

(** Induction along the scan of [replace]. *)
Lemma replace_ind (P : string -> string -> Prop) :
  P EmptyString EmptyString ->
  (forall rest, P rest (replace rest old new) ->
     P (old ++ rest) (new ++ replace rest old new)) ->
  (forall c s, startswith (String c s) old = false ->
     P s (replace s old new) -> P (String c s) (String c (replace s old new))) ->
  forall s, P s (replace s old new).
Proof.
  intros H0 Hhit Hmiss s.
  remember (len s) as n eqn:Hn.
  revert s Hn. induction n as [n IH] using lt_wf_ind. intros s Hn.
  destruct s as [|c s]; [now rewrite replace_nil |].
  destruct (startswith (String c s) old) eqn:H.
  - rewrite replace_hit by (congruence || exact H).
    rewrite (startswith_split _ _ H) at 1.
    apply Hhit. apply (IH (len (drop (len old) (String c s)))); [| reflexivity].
    rewrite len_drop. destruct old_split as (a & o & Ho). rewrite Ho.
    subst n. simpl; lia.
  - rewrite replace_miss by exact H. apply Hmiss; [exact H |].
    apply (IH (len s)); [subst n; simpl; lia | reflexivity].
Qed.

Lemma replace_hit_app (rest : string) :
  replace (old ++ rest) old new = new ++ replace rest old new.
Proof.
  rewrite replace_hit.
  - now rewrite drop_app.
  - destruct old_split as (a & o & Ho). rewrite Ho. discriminate.
  - apply startswith_app.
Qed.

(** Nothing to replace: the string is returned as it is. *)
Lemma replace_absent (s : string) :
  str_in old s = false -> replace s old new = s.
Proof.
  induction s as [|c s IH]; intros H; [apply replace_nil |].
  simpl in H. apply orb_false_iff in H as [H1 H2].
  rewrite replace_miss by exact H1. now rewrite IH.
Qed.

(** What [new] contains is in the result as soon as [old] occurs. *)
Lemma replace_brings (x s : string) :
  str_in x new = true -> str_in old s = true ->
  str_in x (replace s old new) = true.
Proof.
  intros Hx. apply (replace_ind (fun s r => str_in old s = true -> str_in x r = true)).
  - simpl. destruct old; [discriminate | intros; discriminate].
  - intros rest _ _. now apply str_in_app_l.
  - intros c t Hc IH H. apply str_in_cons, IH.
    apply str_in_cons_inv in H as [H | H]; [congruence | exact H].
Qed.

(** A prefix in which no occurrence of [old] begins is copied. *)
Lemma replace_skip (n post : string) :
  suffixes_clash n old = true ->
  replace (n ++ post) old new = n ++ replace post old new.
Proof.
  induction n as [|c n IH]; simpl; intros H; [reflexivity |].
  apply andb_true_iff in H as [Hc Hs].
  rewrite replace_miss.
  - now rewrite IH.
  - change (String c (n ++ post)) with (String c n ++ post). now apply clash_app.
Qed.

(** An occurrence of [x] survives when [x] and [old] cannot overlap. *)
Lemma replace_keeps (x s : string) :
  suffixes_clash x old = true -> suffixes_clash old x = true ->
  str_in x s = true -> str_in x (replace s old new) = true.
Proof.
  intros Hxo Hox.
  remember (len s) as n eqn:Hn. revert s Hn.
  induction n as [n IH] using lt_wf_ind. intros s Hn H.
  destruct s as [|c s].
  - rewrite replace_nil. exact H.
  - destruct (startswith (String c s) old) eqn:Hc.
    + rewrite (startswith_split _ _ Hc) in H |- *.
      rewrite replace_hit_app. apply str_in_app_r.
      apply (IH (len (drop (len old) (String c s)))); [| reflexivity |].
      * rewrite len_drop. destruct old_split as (a & o & Ho). rewrite Ho.
        subst n. simpl; lia.
      * now apply (str_in_behind x old).
    + apply str_in_cons_inv in H as [H | H].
      * rewrite (startswith_split _ _ H), replace_skip by exact Hxo.
        apply str_in_here, startswith_app.
      * rewrite replace_miss by exact Hc. apply str_in_cons.
        apply (IH (len s)); [subst n; simpl; lia | reflexivity | exact H].
Qed.

(** When [old] has no border (no proper suffix of it starts it), every
    occurrence of [old] is replaced. *)
Lemma replace_every (pre post : string) :
  suffixes_clash (drop 1 old) old = true ->
  replace (pre ++ old ++ post) old new
  = replace pre old new ++ new ++ replace post old new.
Proof.
  intros Hb.
  apply (replace_ind (fun pre r =>
           replace (pre ++ old ++ post) old new = r ++ new ++ replace post old new)).
  - simpl. apply replace_hit_app.
  - intros rest IH. rewrite !app_assoc_s, replace_hit_app. now rewrite IH.
  - intros c s Hc IH.
    change (String c s ++ old ++ post) with (String c (s ++ old ++ post)).
    rewrite replace_miss; [simpl; now rewrite IH |].
    destruct (startswith (String c (s ++ old ++ post)) old) eqn:Hs; [| reflexivity].
    exfalso.
    change (String c (s ++ old ++ post)) with (String c s ++ old ++ post) in Hs.
    destruct (startswith_straddle _ _ _ Hs Hc) as [H1 H2].
    destruct old_split as (a & o & Ho).
    assert (Hk : clash (drop (len s) (drop 1 old)) old = true).
    { apply suffixes_clash_drop; [exact Hb |].
      rewrite len_drop. change (len (String c s)) with (S (len s)) in H2. lia. }
    rewrite clash_sym in Hk. apply (clash_app _ _ post) in Hk.
    rewrite Ho in H1, Hk. simpl in H1, Hk. congruence.
Qed.

End Replace.

(** *** [strip] *)

Ltac bools :=
  repeat match goal with
    | H : (_ && _) = true |- _ => apply andb_true_iff in H as [? ?]
    | H : (_ || _) = true |- _ => apply orb_true_iff in H as [H | H]
    | H : negb _ = true |- _ => apply negb_true_iff in H
    | H : (_ =? _)%N = true |- _ => apply N.eqb_eq in H
    | H : (_ <=? _)%N = true |- _ => apply N.leb_le in H
    | H : (_ <? _)%N = true |- _ => apply N.ltb_lt in H
    end.

Ltac neq_byte := symmetry; apply N.eqb_neq; lia.

Lemma lstrip_solid (c : ascii) (s : string) :
  solid c = true -> lstrip (String c s) = String c s.
Proof.
  unfold solid. intros H. bools. cbn [lstrip]. rewrite H.
  destruct s as [|b s2]; [reflexivity |].
  unfold space2. replace (byte c =? 194)%N with false by neq_byte. simpl.
  destruct s2 as [|d s3]; [reflexivity |].
  unfold space3.
  replace (byte c =? 225)%N with false by neq_byte.
  replace (byte c =? 226)%N with false by neq_byte.
  replace (byte c =? 227)%N with false by neq_byte.
  reflexivity.
Qed.

Lemma hollow_of_high (c : ascii) : (128 <= byte c)%N -> negb (solid c) = true.
Proof.
  intros H. unfold solid. apply negb_true_iff, andb_false_iff. right.
  apply N.ltb_ge. exact H.
Qed.

(** Either nothing is stripped, or [s] begins with the bytes [w] of one
    whitespace code point, which is stripped whatever follows. *)
Lemma lstrip_cases (s : string) :
  lstrip s = s \/
  exists w r, s = w ++ r /\ 0 < len w /\ all_hollow w = true /\
              forall x, lstrip (w ++ x) = lstrip x.
Proof.
  destruct s as [|a s1]; [now left |].
  destruct (space1 a) eqn:H1.
  { right. exists (String a EmptyString), s1. repeat split; simpl; try lia.
    - unfold solid. now rewrite H1.
    - intros x. now rewrite H1. }
  destruct s1 as [|b s2]; [left; simpl; now rewrite H1 |].
  destruct (space2 a b) eqn:H2.
  { right. exists (String a (String b EmptyString)), s2. repeat split; simpl; try lia.
    - unfold space2 in H2. bools; rewrite !hollow_of_high by lia; reflexivity.
    - intros x. now rewrite H1, H2. }
  destruct s2 as [|c s3]; [left; simpl; now rewrite H1, H2 |].
  destruct (space3 a b c) eqn:H3.
  { right. exists (String a (String b (String c EmptyString))), s3.
    repeat split; simpl; try lia.
    - unfold space3 in H3. bools; rewrite !hollow_of_high by lia; reflexivity.
    - intros x. now rewrite H1, H2, H3. }
  left. simpl. now rewrite H1, H2, H3.
Qed.

Lemma rstrip_startswith (p t : string) :
  all_solid p = true -> startswith (rstrip t) p = startswith t p.
Proof.
  revert t; induction p as [|a p IH]; intros t H; [reflexivity |].
  simpl in H. apply andb_true_iff in H as [Ha Hp].
  destruct t as [|c t]; [reflexivity |].
  cbn [rstrip]. destruct (is_empty (lstrip (String c t))) eqn:He.
  - simpl. destruct (Ascii.eqb_spec a c) as [-> | _]; [| reflexivity].
    rewrite (lstrip_solid _ _ Ha) in He. discriminate.
  - simpl. now rewrite IH.
Qed.

Lemma strip_startswith (p s : string) :
  all_solid p = true -> startswith (strip s) p = startswith (lstrip s) p.
Proof. intros H. unfold strip. now apply rstrip_startswith. Qed.

(** No occurrence of a string that begins with a solid byte begins inside
    whitespace. *)
Lemma hollow_clash (w : string) (a : ascii) (o : string) :
  solid a = true -> all_hollow w = true -> suffixes_clash w (String a o) = true.
Proof.
  intros Ha. induction w as [|c w IH]; simpl; intros H; [reflexivity |].
  apply andb_true_iff in H as [Hc Hw]. rewrite (IH Hw), andb_true_r.
  unfold clash. simpl.
  destruct (Ascii.eqb_spec a c) as [-> | Hne].
  - rewrite Ha in Hc. discriminate.
  - destruct (Ascii.eqb_spec c a) as [-> | _]; [congruence | reflexivity].
Qed.

End PyStrFacts.

(* ===================================================================== *)
(** ** accessibility_tester.py: the URL check and the embedding of a page *)
(* ===================================================================== *)

Module TesterProofs.
Import PyStr PyRe PyStrFacts AccessibilityTester.

(** *** [is_valid_url] *)

Lemma compile_scheme :
  compile "^https?://"
  = [Bol; Lit "h"; Lit "t"; Lit "t"; Lit "p"; Opt "s"; Lit ":"; Lit "/"; Lit "/"].
Proof. reflexivity. Qed.

(** The pattern accepts exactly the two scheme prefixes. *)
Lemma scheme_pattern (t : string) :
  re_match "^https?://" t = startswith t "http://" || startswith t "https://".
Proof.
  unfold re_match. rewrite compile_scheme.
  destruct t as [|c1 [|c2 [|c3 [|c4 [|c5 [|c6 [|c7 [|c8 t]]]]]]]];
    cbn -[Ascii.eqb];
    rewrite ?(Ascii.eqb_sym "h"), ?(Ascii.eqb_sym "t"), ?(Ascii.eqb_sym "p"),
            ?(Ascii.eqb_sym "s"), ?(Ascii.eqb_sym ":"), ?(Ascii.eqb_sym "/");
    repeat match goal with
      | |- context [Ascii.eqb ?c ?k] => destruct (Ascii.eqb c k); cbn -[Ascii.eqb]
      end;
    reflexivity.
Qed.

(** C5: [is_valid_url] is a total boolean function of its argument alone,
    and it answers true exactly when the argument, with the whitespace at
    both ends removed, begins with [http://] or with [https://]; nothing
    behind the scheme is looked at, so ["http://"] and ["https://x"] pass,
    as does a padded URL, and an upper-case scheme does not. *)
Theorem is_valid_url_spec :
  (forall s : string,
      is_valid_url s = true
      <-> (startswith (strip s) "http://" = true
           \/ startswith (strip s) "https://" = true))
  /\ (forall rest : string,
        is_valid_url ("http://" ++ rest) = true
        /\ is_valid_url ("https://" ++ rest) = true)
  /\ is_valid_url "http://" = true
  /\ is_valid_url "https://x" = true
  /\ is_valid_url ("  https://x " ++ nl) = true
  /\ is_valid_url "HTTP://x" = false
  /\ is_valid_url "ftp://x" = false
  /\ is_valid_url EmptyString = false.
Proof.
  assert (Hiff : forall s : string,
      is_valid_url s = true
      <-> (startswith (strip s) "http://" = true
           \/ startswith (strip s) "https://" = true)).
  { intros s. unfold is_valid_url. rewrite scheme_pattern. apply orb_true_iff. }
  split; [exact Hiff |].
  split; [| repeat split; reflexivity].
  intros rest. split; apply Hiff.
  - left. rewrite strip_startswith by reflexivity.
    change ("http://" ++ rest) with (String "h" ("ttp://" ++ rest)).
    rewrite lstrip_solid by reflexivity. reflexivity.
  - right. rewrite strip_startswith by reflexivity.
    change ("https://" ++ rest) with (String "h" ("ttps://" ++ rest)).
    rewrite lstrip_solid by reflexivity. reflexivity.
Qed.

(** *** [render_html] *)

(** [render_html] is the four rules in the order of the source. *)
Lemma render_html_stages (h : string) :
  render_html h = add_csp (add_viewport (add_charset (add_doctype h))).
Proof. reflexivity. Qed.

Lemma doctyped_lstrip (s : string) :
  startswith (strip s) "<!DOCTYPE" = startswith (lstrip s) "<!DOCTYPE".
Proof. apply strip_startswith. reflexivity. Qed.

Lemma add_doctype_doctyped (h : string) : doctyped (add_doctype h).
Proof.
  unfold doctyped, add_doctype.
  destruct (startswith (strip h) "<!DOCTYPE") eqn:H; cbn [negb]; [exact H |].
  rewrite doctyped_lstrip.
  change ("<!DOCTYPE html>" ++ nl ++ h) with (String "<" ("!DOCTYPE html>" ++ nl ++ h)).
  rewrite lstrip_solid by reflexivity. reflexivity.
Qed.

Lemma head_nonempty : is_empty "<head>" = false.
Proof. reflexivity. Qed.

(** The insertion behind [<head>] leaves the doctype where it is. *)
Lemma in_head_doctyped (tag s : string) : doctyped s -> doctyped (in_head tag s).
Proof.
  unfold doctyped. rewrite !doctyped_lstrip.
  remember (String.length s) as n eqn:Hn. revert s Hn.
  induction n as [n IH] using lt_wf_ind. intros s Hn H.
  destruct (lstrip_cases s) as [Hs | (w & r & Hs & Hw & Hh & Hx)].
  - rewrite Hs in H. rewrite (startswith_split _ _ H). unfold in_head.
    rewrite replace_skip by reflexivity.
    match goal with
    | |- startswith (lstrip ("<!DOCTYPE" ++ ?x)) _ = true =>
        change ("<!DOCTYPE" ++ x) with (String "<" ("!DOCTYPE" ++ x))
    end.
    rewrite lstrip_solid by reflexivity. reflexivity.
  - subst s. rewrite Hx in H. unfold in_head.
    rewrite replace_skip;
      [| reflexivity | apply hollow_clash; [reflexivity | exact Hh]].
    rewrite Hx. apply (IH (String.length r)); [| reflexivity | exact H].
    rewrite Hn, len_app. lia.
Qed.

Lemma add_charset_rule (s : string) :
  add_charset s = rule "<meta charset=" charset_meta s.
Proof. reflexivity. Qed.

Lemma add_viewport_rule (s : string) :
  add_viewport s = rule "viewport" viewport_meta s.
Proof. reflexivity. Qed.

Lemma add_csp_rule (s : string) :
  add_csp s = rule "Content-Security-Policy" csp_meta s.
Proof. reflexivity. Qed.

Section Rule.
Variables (marker tag : string).

Lemma rule_doctyped (s : string) : doctyped s -> doctyped (rule marker tag s).
Proof.
  intros H. unfold rule. destruct (negb (str_in marker s)); [| exact H].
  now apply in_head_doctyped.
Qed.

Lemma rule_no_head (s : string) :
  str_in "<head>" s = false -> rule marker tag s = s.
Proof.
  intros H. unfold rule, in_head. destruct (negb (str_in marker s)); [| reflexivity].
  now apply replace_absent.
Qed.

Lemma rule_marked (s : string) : str_in marker s = true -> rule marker tag s = s.
Proof. intros H. unfold rule. now rewrite H. Qed.

Lemma rule_head (s : string) :
  str_in "<head>" s = true -> str_in "<head>" (rule marker tag s) = true.
Proof.
  intros H. unfold rule, in_head. destruct (negb (str_in marker s)); [| exact H].
  apply replace_brings; [reflexivity | | exact H].
  apply str_in_here, startswith_app.
Qed.

(** After the rule the marker is there, provided the tag holds it. *)
Lemma rule_marks (s : string) :
  str_in marker ("<head>" ++ nl ++ "    " ++ tag) = true ->
  str_in "<head>" s = true -> str_in marker (rule marker tag s) = true.
Proof.
  intros Ht H. unfold rule, in_head. destruct (str_in marker s) eqn:Hm; cbn [negb];
    [exact Hm |].
  now apply replace_brings.
Qed.

(** What cannot overlap [<head>] stays. *)
Lemma rule_keeps (x s : string) :
  suffixes_clash x "<head>" = true -> suffixes_clash "<head>" x = true ->
  str_in x s = true -> str_in x (rule marker tag s) = true.
Proof.
  intros H1 H2 H. unfold rule, in_head. destruct (negb (str_in marker s)); [| exact H].
  now apply replace_keeps.
Qed.

End Rule.

Lemma render_html_settled (s : string) : settled s -> render_html s = s.
Proof.
  intros [Hd Hm]. rewrite render_html_stages.
  assert (H1 : add_doctype s = s) by (unfold add_doctype; now rewrite Hd).
  rewrite H1, add_charset_rule, add_viewport_rule, add_csp_rule.
  destruct (str_in "<head>" s) eqn:Hh.
  - destruct (Hm eq_refl) as (Hc & Hv & Hp).
    rewrite (rule_marked _ _ _ Hc), (rule_marked _ _ _ Hv). now apply rule_marked.
  - rewrite !(rule_no_head _ _ _ Hh). reflexivity.
Qed.

Lemma render_html_is_settled (h : string) : settled (render_html h).
Proof.
  rewrite render_html_stages, add_charset_rule, add_viewport_rule, add_csp_rule.
  pose proof (add_doctype_doctyped h) as Hd.
  set (h1 := add_doctype h) in *. split.
  - now repeat apply rule_doctyped.
  - destruct (str_in "<head>" h1) eqn:Hh.
    + intros _.
      set (h2 := rule "<meta charset=" charset_meta h1).
      set (h3 := rule "viewport" viewport_meta h2).
      assert (Hh2 : str_in "<head>" h2 = true) by now apply rule_head.
      assert (Hh3 : str_in "<head>" h3 = true) by now apply rule_head.
      assert (Hc2 : str_in "<meta charset=" h2 = true)
        by (apply rule_marks; [reflexivity | exact Hh]).
      assert (Hv3 : str_in "viewport" h3 = true)
        by (apply rule_marks; [reflexivity | exact Hh2]).
      assert (Hc3 : str_in "<meta charset=" h3 = true)
        by (apply rule_keeps; [reflexivity | reflexivity | exact Hc2]).
      repeat split.
      * apply rule_keeps; [reflexivity | reflexivity | exact Hc3].
      * apply rule_keeps; [reflexivity | reflexivity | exact Hv3].
      * apply rule_marks; [reflexivity | exact Hh3].
    + rewrite !(rule_no_head _ _ _ Hh). congruence.
Qed.

(** C3: [render_html] is idempotent on every string: applied to its own
    output it returns that output, because the output is doctyped and, when
    it has a [<head>], holds the three markers the guards look for. *)
Theorem render_html_idempotent :
  forall h : string, render_html (render_html h) = render_html h.
Proof. intros h. apply render_html_settled, render_html_is_settled. Qed.

(** C4: on [<html><head></head><body>x</body></html>] the rules fire in the
    order doctype, charset, viewport, CSP (each tag goes right behind
    [<head>], so the later a tag is inserted the earlier it stands); the
    result has one doctype, one charset tag, one viewport tag, one CSP tag
    and no other [meta], and the body is as it was. *)
Theorem render_html_scenario :
  add_doctype page0 = page1
  /\ add_charset page1 = page2
  /\ add_viewport page2 = page3
  /\ add_csp page3 = page4
  /\ render_html page0 = page4
  /\ count page4 "<!DOCTYPE" = 1
  /\ count page4 "<meta charset=" = 1
  /\ count page4 ("<meta name=" ++ dq ++ "viewport" ++ dq) = 1
  /\ count page4 "viewport" = 1
  /\ count page4 ("<meta http-equiv=" ++ dq ++ "Content-Security-Policy" ++ dq) = 1
  /\ count page4 "Content-Security-Policy" = 1
  /\ count page4 "<meta" = 3
  /\ count page4 "<body>x</body>" = 1
  /\ (exists before, page4 = before ++ "</head><body>x</body></html>").
Proof.
  repeat split; try (vm_compute; reflexivity).
  exists ("<!DOCTYPE html>" ++ nl ++ "<html><head>" ++ nl ++ "    " ++ csp_meta
          ++ nl ++ "    " ++ viewport_meta ++ nl ++ "    " ++ charset_meta).
  vm_compute. reflexivity.
Qed.

Lemma add_doctype_no_head (h : string) :
  str_in "<head>" h = false -> str_in "<head>" (add_doctype h) = false.
Proof.
  intros H. unfold add_doctype.
  destruct (negb (startswith (strip h) "<!DOCTYPE")); [| exact H].
  rewrite <- app_assoc_s.
  destruct (str_in "<head>" (("<!DOCTYPE html>" ++ nl) ++ h)) eqn:Hp; [| reflexivity].
  apply str_in_behind in Hp; [congruence | reflexivity].
Qed.

Lemma add_doctype_keeps (x h : string) :
  str_in x h = true -> str_in x (add_doctype h) = true.
Proof.
  intros H. unfold add_doctype.
  destruct (negb (startswith (strip h) "<!DOCTYPE")); [| exact H].
  rewrite <- app_assoc_s. now apply str_in_app_r.
Qed.

(** Every [<head>] gets the tag: [<head>] has no border. *)
Lemma in_head_every (tag pre post : string) :
  in_head tag (pre ++ "<head>" ++ post)
  = in_head tag pre ++ ("<head>" ++ nl ++ "    " ++ tag) ++ in_head tag post.
Proof. unfold in_head. apply replace_every; reflexivity. Qed.

(** C10: the rules of [render_html] look for exact substrings.  (1) On a
    page without the literal [<head>] only the doctype rule can act, as for
    a head tag with an attribute or in upper case.  (2) The word [viewport]
    anywhere in the page switches the viewport rule off, and (3) the word
    [Content-Security-Policy] anywhere switches the CSP rule off.  (4) A
    rule that acts puts its tag behind every [<head>] of the page, in the
    body too. *)
Theorem render_html_substring_guards :
  (forall h : string,
      str_in "<head>" h = false ->
      render_html h
      = if startswith (strip h) "<!DOCTYPE" then h else "<!DOCTYPE html>" ++ nl ++ h)
  /\ render_html ("<html><head lang=" ++ dq ++ "en" ++ dq ++ "></head></html>")
     = "<!DOCTYPE html>" ++ nl
       ++ "<html><head lang=" ++ dq ++ "en" ++ dq ++ "></head></html>"
  /\ render_html "<html><HEAD></HEAD></html>"
     = "<!DOCTYPE html>" ++ nl ++ "<html><HEAD></HEAD></html>"
  /\ (forall h : string,
        str_in "viewport" h = true ->
        render_html h = add_csp (add_charset (add_doctype h)))
  /\ (forall h : string,
        str_in "Content-Security-Policy" h = true ->
        render_html h = add_viewport (add_charset (add_doctype h)))
  /\ render_html "<head></head><body>viewport Content-Security-Policy</body>"
     = "<!DOCTYPE html>" ++ nl ++ "<head>" ++ nl ++ "    " ++ charset_meta
       ++ "</head><body>viewport Content-Security-Policy</body>"
  /\ (forall pre post : string,
        str_in "<meta charset=" (pre ++ "<head>" ++ post) = false ->
        add_charset (pre ++ "<head>" ++ post)
        = in_head charset_meta pre
          ++ ("<head>" ++ nl ++ "    " ++ charset_meta) ++ in_head charset_meta post)
  /\ (forall pre post : string,
        str_in "viewport" (pre ++ "<head>" ++ post) = false ->
        add_viewport (pre ++ "<head>" ++ post)
        = in_head viewport_meta pre
          ++ ("<head>" ++ nl ++ "    " ++ viewport_meta) ++ in_head viewport_meta post)
  /\ (forall pre post : string,
        str_in "Content-Security-Policy" (pre ++ "<head>" ++ post) = false ->
        add_csp (pre ++ "<head>" ++ post)
        = in_head csp_meta pre
          ++ ("<head>" ++ nl ++ "    " ++ csp_meta) ++ in_head csp_meta post)
  /\ add_charset "<head></head><body><head></body>"
     = "<head>" ++ nl ++ "    " ++ charset_meta ++ "</head><body><head>"
       ++ nl ++ "    " ++ charset_meta ++ "</body>".
Proof.
  split.
  { intros h H. rewrite render_html_stages.
    pose proof (add_doctype_no_head h H) as H1.
    rewrite add_charset_rule, add_viewport_rule, add_csp_rule.
    rewrite !(rule_no_head _ _ _ H1). unfold add_doctype.
    now destruct (startswith (strip h) "<!DOCTYPE"). }
  split; [vm_compute; reflexivity |].
  split; [vm_compute; reflexivity |].
  split.
  { intros h H. rewrite render_html_stages. f_equal.
    rewrite add_viewport_rule. apply rule_marked.
    rewrite add_charset_rule.
    apply rule_keeps; [reflexivity | reflexivity |].
    now apply add_doctype_keeps. }
  split.
  { intros h H. rewrite render_html_stages.
    rewrite add_csp_rule. apply rule_marked.
    rewrite add_viewport_rule, add_charset_rule.
    do 2 (apply rule_keeps; [reflexivity | reflexivity |]).
    now apply add_doctype_keeps. }
  split; [vm_compute; reflexivity |].
  split; [intros pre post H; unfold add_charset; rewrite H; apply in_head_every |].
  split; [intros pre post H; unfold add_viewport; rewrite H; apply in_head_every |].
  split; [intros pre post H; unfold add_csp; rewrite H; apply in_head_every |].
  vm_compute. reflexivity.
Qed.

Lemma render_html_substring_guards_witness :
  render_html "<p>no head here</p>"
  = (if startswith (strip "<p>no head here</p>") "<!DOCTYPE"
     then "<p>no head here</p>"
     else "<!DOCTYPE html>" ++ nl ++ "<p>no head here</p>")
  /\ render_html "<head></head><p>viewport</p>"
     = add_csp (add_charset (add_doctype "<head></head><p>viewport</p>")).
Proof.
  split.
  - apply (proj1 render_html_substring_guards). reflexivity.
  - apply (proj1 (proj2 (proj2 (proj2 render_html_substring_guards)))). reflexivity.
Defined.

End TesterProofs.

(* ===================================================================== *)
(** ** The simulated environment raises exceptions only *)
(* ===================================================================== *)

Module SimFacts.
Import PyStr Sim.

Lemma sim_run_raises (a : auditor) (cmd : list string) (t : option N)
    (files files' : gmap string string) (e : exn) :
  sim_run_process a cmd t files = (Raise e, files') -> is_Exception e = true.
Proof.
  destruct a as [| seconds exit_code out err report]; simpl.
  - intros H. inversion H. reflexivity.
  - destruct t as [t |]; [destruct (t <? seconds)%N |]; intros H; inversion H.
    reflexivity.
Qed.

Ltac raised :=
  match goal with
  | H : Raise _ = Raise _ |- _ => inversion H; subst; clear H; reflexivity
  | H : Return _ = Raise _ |- _ => discriminate H
  end.

Lemma parse_raises (n : nat) :
  (forall s e, parse_value n s = Raise e -> is_Exception e = true)
  /\ (forall acc s e, parse_elems n acc s = Raise e -> is_Exception e = true)
  /\ (forall acc s e, parse_members n acc s = Raise e -> is_Exception e = true).
Proof.
  induction n as [|n (IHv & IHe & IHm)].
  - repeat split; intros; simpl in *; raised.
  - repeat split.
    + intros s e H. cbn [parse_value] in H.
      repeat case_match; try raised; simplify_eq; eauto.
    + intros acc s e H. cbn [parse_elems] in H.
      repeat case_match; try raised; simplify_eq; eauto.
    + intros acc s e H. cbn [parse_members] in H.
      repeat case_match; try raised; simplify_eq; eauto.
Qed.

Lemma loads_raises (s : string) (e : exn) :
  loads s = Raise e -> is_Exception e = true.
Proof.
  unfold loads. intros H.
  destruct (parse_value (S (String.length s)) (skip_blanks s)) as [[v rest] | e'] eqn:Hp.
  - destruct (is_empty (skip_blanks rest)); [discriminate | raised].
  - inversion H; subst. eapply (proj1 (parse_raises _)); eauto.
Qed.

End SimFacts.

(* ===================================================================== *)
(** ** streamlit_a11y_app.py: what [run_accessibility_check] returns *)
(* ===================================================================== *)

Module AppProofs.
Import PyStr PyStrFacts Sim StreamlitA11yApp.

Section Check.
Context `{E : Env}.

(** The four ways through [run_accessibility_check]. *)

Lemma check_parsed (url : string) (w : World) (cp : CompletedProcess)
    (files : gmap string string) (payload : pyval) :
  run_process (check_cmd url) (Some 60%N) (fs w) = (Return cp, files) ->
  returncode cp = 0%Z ->
  json_loads (stdout cp) = Return payload ->
  run_accessibility_check url w = (Return payload, spawned_check w url files).
Proof.
  intros Hrun Hrc Hjson.
  unfold run_accessibility_check, try_except, subprocess_run, mbind, M_bind, bind.
  fold (check_cmd url). rewrite Hrun, Hrc. cbn. unfold lift. now rewrite Hjson.
Qed.

Lemma check_failed (url : string) (w : World) (cp : CompletedProcess)
    (files : gmap string string) :
  run_process (check_cmd url) (Some 60%N) (fs w) = (Return cp, files) ->
  returncode cp <> 0%Z ->
  run_accessibility_check url w
  = (Return (failed_record (stderr cp)), spawned_check w url files).
Proof.
  intros Hrun Hrc.
  unfold run_accessibility_check, try_except, subprocess_run, mbind, M_bind, bind.
  fold (check_cmd url). rewrite Hrun.
  destruct (Z.eqb_spec (returncode cp) 0); [contradiction | reflexivity].
Qed.

Lemma check_spawn_raises (url : string) (w : World) (e : exn)
    (files : gmap string string) :
  run_process (check_cmd url) (Some 60%N) (fs w) = (Raise e, files) ->
  run_accessibility_check url w
  = (match handled e with Some r => Return r | None => Raise e end,
     spawned_check w url files).
Proof.
  intros Hrun.
  unfold run_accessibility_check, try_except, subprocess_run, mbind, M_bind, bind.
  fold (check_cmd url). rewrite Hrun. unfold handled.
  destruct (is_TimeoutExpired e); [reflexivity |].
  destruct (is_Exception e); reflexivity.
Qed.

Lemma check_decode_raises (url : string) (w : World) (cp : CompletedProcess)
    (files : gmap string string) (e : exn) :
  run_process (check_cmd url) (Some 60%N) (fs w) = (Return cp, files) ->
  returncode cp = 0%Z ->
  json_loads (stdout cp) = Raise e ->
  run_accessibility_check url w
  = (match handled e with Some r => Return r | None => Raise e end,
     spawned_check w url files).
Proof.
  intros Hrun Hrc Hjson.
  unfold run_accessibility_check, try_except, subprocess_run, mbind, M_bind, bind.
  fold (check_cmd url). rewrite Hrun, Hrc. cbn. unfold lift. rewrite Hjson.
  unfold handled.
  destruct (is_TimeoutExpired e); [reflexivity |].
  destruct (is_Exception e); reflexivity.
Qed.

(** The method spawns the auditor once and touches nothing else but what
    the auditor does to the files. *)
Lemma check_world (url : string) (w : World) :
  exists files, snd (run_accessibility_check url w) = spawned_check w url files.
Proof.
  destruct (run_process (check_cmd url) (Some 60%N) (fs w)) as [[cp | e] files] eqn:Hrun.
  - exists files. destruct (Z.eq_dec (returncode cp) 0%Z) as [Hrc | Hrc].
    + destruct (json_loads (stdout cp)) as [v | e] eqn:Hjson.
      * now rewrite (check_parsed _ _ _ _ _ Hrun Hrc Hjson).
      * now rewrite (check_decode_raises _ _ _ _ _ Hrun Hrc Hjson).
    + now rewrite (check_failed _ _ _ _ Hrun Hrc).
  - exists files. now rewrite (check_spawn_raises _ _ _ _ Hrun).
Qed.

Lemma handled_exception (e : exn) :
  is_Exception e = true ->
  exists r, handled e = Some r
            /\ (r = timeout_record \/ r = exception_record (exn_str e)).
Proof.
  intros H. unfold handled. destruct (is_TimeoutExpired e); [eauto |].
  rewrite H. eauto.
Qed.

(** C1 (amended): when the auditor exits with 0 and its standard output
    parses to a payload whose success flag is false, the method returns
    that payload itself, unchanged: the result carries the error string of
    the payload, and it has a [streamlitHtml] entry exactly when the
    payload has one.  No fallback fragment is built on this path. *)
Theorem check_returns_payload_verbatim (url : string) (w : World)
    (cp : CompletedProcess) (files : gmap string string) (payload : pyval) :
  run_process (check_cmd url) (Some 60%N) (fs w) = (Return cp, files) ->
  returncode cp = 0%Z ->
  json_loads (stdout cp) = Return payload ->
  get_item payload "success" = Some (PBool false) ->
  exists result,
    run_accessibility_check url w = (Return result, spawned_check w url files)
    /\ result = payload
    /\ get_item result "error" = get_item payload "error"
    /\ has_key result "streamlitHtml" = has_key payload "streamlitHtml".
Proof.
  intros Hrun Hrc Hjson _. exists payload.
  rewrite (check_parsed _ _ _ _ _ Hrun Hrc Hjson). repeat split.
Qed.

(** C7: whatever the auditor does, as long as what [subprocess.run] and
    [json.loads] raise are exceptions in the sense of [except Exception]
    (a timeout, a missing executable, any [OSError], a decoding error),
    [run_accessibility_check] returns a value and raises nothing: the
    parsed payload after exit code 0, and otherwise one of the three
    records it builds for a non-zero exit, a timeout, or any other
    exception. *)
Theorem check_never_raises (url : string) (w : World) :
  (forall cmd t files e files',
      run_process cmd t files = (Raise e, files') -> is_Exception e = true) ->
  (forall s e, json_loads s = Raise e -> is_Exception e = true) ->
  exists result w',
    run_accessibility_check url w = (Return result, w')
    /\ ((exists cp files,
            run_process (check_cmd url) (Some 60%N) (fs w) = (Return cp, files)
            /\ returncode cp = 0%Z /\ json_loads (stdout cp) = Return result)
        \/ (exists err, result = failed_record err)
        \/ result = timeout_record
        \/ (exists msg, result = exception_record msg)).
Proof.
  intros Hspawn Hjson.
  destruct (run_process (check_cmd url) (Some 60%N) (fs w)) as [[cp | e] files] eqn:Hrun.
  - destruct (Z.eq_dec (returncode cp) 0%Z) as [Hrc | Hrc].
    + destruct (json_loads (stdout cp)) as [v | e] eqn:Hj.
      * exists v, (spawned_check w url files).
        rewrite (check_parsed _ _ _ _ _ Hrun Hrc Hj). split; [reflexivity |].
        left. exists cp, files. auto.
      * destruct (handled_exception e (Hjson _ _ Hj)) as (r & Hr & Hshape).
        exists r, (spawned_check w url files).
        rewrite (check_decode_raises _ _ _ _ _ Hrun Hrc Hj), Hr.
        split; [reflexivity |]. destruct Hshape; eauto.
    + exists (failed_record (stderr cp)), (spawned_check w url files).
      rewrite (check_failed _ _ _ _ Hrun Hrc). eauto.
  - destruct (handled_exception e (Hspawn _ _ _ _ _ Hrun)) as (r & Hr & Hshape).
    exists r, (spawned_check w url files).
    rewrite (check_spawn_raises _ _ _ _ Hrun), Hr.
    split; [reflexivity |]. destruct Hshape; eauto.
Qed.

End Check.

(** C6: the auditor is run with a budget of 60 seconds.  When
    [subprocess.run] gives up on it ([TimeoutExpired], raised after the
    child was killed) the method returns the timeout record: success
    false, the error [Request timed out] and its fallback fragment.  A
    non-zero exit gives the failure record instead, and the two never
    coincide: their error strings differ.  So an auditor that needs more
    than 60 seconds gives the timeout record, whatever it would have
    printed. *)
Theorem check_timeout `{E : Env} (url : string) (w : World)
    (files : gmap string string) :
  (forall e,
      run_process (check_cmd url) (Some 60%N) (fs w) = (Raise e, files) ->
      is_TimeoutExpired e = true ->
      run_accessibility_check url w = (Return timeout_record, spawned_check w url files))
  /\ (forall cp,
        run_process (check_cmd url) (Some 60%N) (fs w) = (Return cp, files) ->
        returncode cp <> 0%Z ->
        run_accessibility_check url w
        = (Return (failed_record (stderr cp)), spawned_check w url files))
  /\ timeout_record
     = PDict [("success", PBool false);
              ("error", PStr "Request timed out");
              ("streamlitHtml",
               PStr ("<div style=" ++ dq ++ "padding: 20px; color: red;" ++ dq
                     ++ ">Request timed out after 60 seconds</div>"))]
  /\ (forall err, failed_record err <> timeout_record)
  /\ (forall err,
        get_item (failed_record err) "error" <> get_item timeout_record "error")
  /\ (forall seconds exit_code out err report,
        (60 < seconds)%N ->
        @run_accessibility_check (Sim.sim_env (Sim.Runs seconds exit_code out err report))
          url w
        = (Return timeout_record, spawned_check w url (fs w))).
Proof.
  split; [| split; [| split; [| split; [| split]]]].
  - intros e Hrun He. rewrite (check_spawn_raises _ _ _ _ Hrun).
    unfold handled. now rewrite He.
  - intros cp Hrun Hrc. now apply check_failed.
  - reflexivity.
  - intros err H. inversion H.
  - intros err H. inversion H.
  - intros seconds exit_code out err report Hs.
    rewrite (@check_spawn_raises (Sim.sim_env (Sim.Runs seconds exit_code out err report))
               url w (mk_exn TimeoutExpired "Command timed out") (fs w)).
    + reflexivity.
    + cbn. apply N.ltb_lt in Hs. now rewrite Hs.
Qed.

(** C1, as stated, fails: the auditor exits with 0 and prints
    [{"success": false, "error": "boom"}]; the result is that payload, which
    carries the error string but no [streamlitHtml] entry at all. *)
Lemma boom_result_has_no_html :
  Sim.loads boom_stdout = Return boom_payload
  /\ get_item boom_payload "success" = Some (PBool false)
  /\ exists result w',
       @run_accessibility_check (Sim.sim_env boom_auditor)
         "https://example.com" Sim.fresh_world = (Return result, w')
       /\ get_item result "error" = Some (PStr "boom")
       /\ get_item result "streamlitHtml" = None
       /\ ~ has_fallback_html result "boom".
Proof.
  split; [vm_compute; reflexivity |]. split; [reflexivity |].
  exists boom_payload, (spawned_check Sim.fresh_world "https://example.com" ∅).
  split; [| split; [reflexivity | split; [reflexivity |]]].
  - apply (@check_parsed (Sim.sim_env boom_auditor) _ _
             (mk_completed 0 boom_stdout EmptyString)); reflexivity.
  - intros (_ & html & Hhtml & _). discriminate Hhtml.
Qed.

Lemma check_never_raises_witness :
  exists result w',
    @run_accessibility_check (Sim.sim_env Sim.NotInstalled)
      "https://example.com" Sim.fresh_world = (Return result, w')
    /\ ((exists cp files,
            @run_process (Sim.sim_env Sim.NotInstalled)
              (check_cmd "https://example.com") (Some 60%N) (fs Sim.fresh_world)
            = (Return cp, files)
            /\ returncode cp = 0%Z
            /\ @json_loads (Sim.sim_env Sim.NotInstalled) (stdout cp) = Return result)
        \/ (exists err, result = failed_record err)
        \/ result = timeout_record
        \/ (exists msg, result = exception_record msg)).
Proof.
  apply (@check_never_raises (Sim.sim_env Sim.NotInstalled)
           "https://example.com" Sim.fresh_world).
  - intros cmd t files e files' H. exact (SimFacts.sim_run_raises _ _ _ _ _ _ H).
  - intros s e H. exact (SimFacts.loads_raises _ _ H).
Defined.

Lemma check_timeout_witness :
  @run_accessibility_check
    (Sim.sim_env (Sim.Runs 61 0 boom_stdout EmptyString None))
    "https://example.com" Sim.fresh_world
  = (Return timeout_record, spawned_check Sim.fresh_world "https://example.com" ∅).
Proof.
  apply (proj1 (@check_timeout
                  (Sim.sim_env (Sim.Runs 61 0 boom_stdout EmptyString None))
                  "https://example.com" Sim.fresh_world ∅)
           (mk_exn TimeoutExpired "Command timed out")).
  - reflexivity.
  - reflexivity.
Defined.

Lemma check_returns_payload_verbatim_witness :
  exists result,
    @run_accessibility_check (Sim.sim_env boom_auditor)
      "https://example.com" Sim.fresh_world
    = (Return result, spawned_check Sim.fresh_world "https://example.com" ∅)
    /\ result = boom_payload
    /\ get_item result "error" = get_item boom_payload "error"
    /\ has_key result "streamlitHtml" = has_key boom_payload "streamlitHtml".
Proof.
  apply (@check_returns_payload_verbatim (Sim.sim_env boom_auditor)
           "https://example.com" Sim.fresh_world
           (mk_completed 0 boom_stdout EmptyString) ∅ boom_payload).
  - reflexivity.
  - reflexivity.
  - vm_compute. reflexivity.
  - reflexivity.
Defined.

End AppProofs.

(* ===================================================================== *)
(** ** Which processes a computation spawns *)
(* ===================================================================== *)

Module SpawnFacts.
Import Spawns.

Lemma extends_same (P : list string -> Prop) (w w' : World) :
  spawned w' = spawned w -> extends P w w'.
Proof. intros H. exists []. rewrite H, app_nil_r. split; [reflexivity | constructor]. Qed.

Lemma extends_trans (P : list string -> Prop) (w1 w2 w3 : World) :
  extends P w1 w2 -> extends P w2 w3 -> extends P w1 w3.
Proof.
  intros (n1 & H1 & F1) (n2 & H2 & F2). exists (n1 ++ n2)%list.
  rewrite H2, H1, <- app_assoc. split; [reflexivity | now apply Forall_app].
Qed.

Lemma extends_weaken (P Q : list string -> Prop) (w w' : World) :
  (forall cmd, P cmd -> Q cmd) -> extends P w w' -> extends Q w w'.
Proof.
  intros HPQ (new & H & F). exists new. split; [exact H |].
  eapply Forall_impl; eauto.
Qed.

Section Rules.
Context `{E : Env}.
Variable P : list string -> Prop.

Lemma spawns_ret {A} (a : A) : spawns_only P (mret a).
Proof. intros w. now apply extends_same. Qed.

Lemma spawns_raise {A} (e : exn) : spawns_only P (@raise A e).
Proof. intros w. now apply extends_same. Qed.

Lemma spawns_lift {A} (o : outcome A) : spawns_only P (lift o).
Proof. intros w. now apply extends_same. Qed.

Lemma spawns_get_world : spawns_only P get_world.
Proof. intros w. now apply extends_same. Qed.

Lemma spawns_set_fs (f : gmap string string) : spawns_only P (set_fs f).
Proof. intros w. now apply extends_same. Qed.

Lemma spawns_set_session (s : session_state) : spawns_only P (set_session s).
Proof. intros w. now apply extends_same. Qed.

Lemma spawns_show (e : ui_event) : spawns_only P (show e).
Proof. intros w. now apply extends_same. Qed.

Lemma spawns_show_all (es : list ui_event) : spawns_only P (show_all es).
Proof. intros w. now apply extends_same. Qed.

Lemma spawns_bind {A B} (m : M A) (k : A -> M B) :
  spawns_only P m -> (forall a, spawns_only P (k a)) -> spawns_only P (m ≫= k).
Proof.
  intros Hm Hk w. unfold mbind, M_bind, bind.
  specialize (Hm w). destruct (m w) as [[a | e] w1]; simpl in *; [| exact Hm].
  eapply extends_trans; [exact Hm | apply Hk].
Qed.

Lemma spawns_try {A} (body : M A) (handler : exn -> option (M A)) :
  spawns_only P body ->
  (forall e h, handler e = Some h -> spawns_only P h) ->
  spawns_only P (try_except body handler).
Proof.
  intros Hb Hh w. unfold try_except.
  specialize (Hb w). destruct (body w) as [[a | e] w1]; simpl in *; [exact Hb |].
  destruct (handler e) as [h |] eqn:He; [| exact Hb].
  eapply extends_trans; [exact Hb | apply (Hh _ _ He)].
Qed.

Lemma spawns_subprocess_run (cmd : list string) (timeout : option N) :
  P cmd -> spawns_only P (subprocess_run cmd timeout).
Proof.
  intros Hc w. unfold subprocess_run.
  destruct (run_process cmd timeout (fs w)) as [r files]. simpl.
  exists [cmd]. split; [reflexivity | now constructor].
Qed.

Lemma spawns_named_temporary_file (suffix : string) :
  spawns_only P (named_temporary_file suffix).
Proof.
  unfold named_temporary_file.
  apply spawns_bind; [apply spawns_get_world | intros w0].
  apply spawns_bind; [apply spawns_lift | intros path].
  apply spawns_bind; [apply spawns_set_fs | intros _; apply spawns_ret].
Qed.

Lemma spawns_read_text (path : string) : spawns_only P (read_text path).
Proof.
  unfold read_text. apply spawns_bind; [apply spawns_get_world | intros w0].
  destruct (fs w0 !! path); [apply spawns_ret | apply spawns_raise].
Qed.

Lemma spawns_os_unlink (path : string) : spawns_only P (os_unlink path).
Proof.
  unfold os_unlink. apply spawns_bind; [apply spawns_get_world | intros w0].
  destruct (fs w0 !! path); [apply spawns_set_fs | apply spawns_raise].
Qed.

End Rules.

Lemma spawns_weaken `{E : Env} {A} (P Q : list string -> Prop) (m : M A) :
  (forall cmd, P cmd -> Q cmd) -> spawns_only P m -> spawns_only Q m.
Proof. intros HPQ H w. eapply extends_weaken; eauto. Qed.

End SpawnFacts.

(* ===================================================================== *)
(** ** accessibility_tester.py: the auditor run and the page script *)
(* ===================================================================== *)

Module DispatchProofs.
Import PyStr PyStrFacts AccessibilityTester Spawns SpawnFacts.

Section Axe.
Context `{E : Env}.
Variables (url : string) (standards_list : list string) (device_type : string)
          (keyboard_testing : bool).

(** A non-zero exit: the error is shown, the error page is returned, and
    the files are left exactly as the auditor left them. *)
Lemma run_node_axe_failed (w : World) (path : string) (cp : CompletedProcess)
    (files : gmap string string) :
  temp_name (fs w) ".html" = Return path ->
  run_process (axe_cmd url standards_list device_type path keyboard_testing) None
    (<[path := EmptyString]> (fs w)) = (Return cp, files) ->
  returncode cp <> 0%Z ->
  run_node_axe url standards_list device_type keyboard_testing w
  = (Return error_page,
     {| fs := files;
        spawned := (spawned w
                    ++ [axe_cmd url standards_list device_type path keyboard_testing])%list;
        ui := (ui w ++ [StError ("Error running accessibility test: " ++ stderr cp)])%list;
        session := session w |}).
Proof.
  intros Htmp Hrun Hrc.
  unfold run_node_axe, named_temporary_file, subprocess_run, mbind, M_bind, bind,
    get_world, lift, set_fs.
  rewrite Htmp. cbn. fold (axe_cmd url standards_list device_type path keyboard_testing).
  rewrite Hrun.
  destruct (Z.eqb_spec (returncode cp) 0); [contradiction | reflexivity].
Qed.

(** Exit code 0 with the report in place: the report is returned and the
    temporary file is removed. *)
Lemma run_node_axe_ok (w : World) (path : string) (cp : CompletedProcess)
    (files : gmap string string) (html : string) :
  temp_name (fs w) ".html" = Return path ->
  run_process (axe_cmd url standards_list device_type path keyboard_testing) None
    (<[path := EmptyString]> (fs w)) = (Return cp, files) ->
  returncode cp = 0%Z ->
  files !! path = Some html ->
  run_node_axe url standards_list device_type keyboard_testing w
  = (Return html,
     {| fs := delete path files;
        spawned := (spawned w
                    ++ [axe_cmd url standards_list device_type path keyboard_testing])%list;
        ui := ui w;
        session := session w |}).
Proof.
  intros Htmp Hrun Hrc Hfile.
  unfold run_node_axe, named_temporary_file, subprocess_run, mbind, M_bind, bind,
    get_world, lift, set_fs.
  rewrite Htmp. cbn. fold (axe_cmd url standards_list device_type path keyboard_testing).
  rewrite Hrun, Hrc. cbn. unfold read_text, os_unlink, mbind, M_bind, bind, get_world.
  cbn. rewrite Hfile. cbn. rewrite Hfile. reflexivity.
Qed.

(** Whatever happens, [run_node_axe] spawns nothing but its own command. *)
Lemma run_node_axe_spawns :
  spawns_only
    (fun cmd => exists out_file,
         cmd = axe_cmd url standards_list device_type out_file keyboard_testing)
    (run_node_axe url standards_list device_type keyboard_testing).
Proof.
  unfold run_node_axe.
  apply spawns_bind; [apply spawns_named_temporary_file | intros out_file].
  apply spawns_bind; [apply spawns_subprocess_run; now exists out_file | intros result].
  destruct (negb (returncode result =? 0)%Z).
  - apply spawns_bind; [apply spawns_show | intros _; apply spawns_ret].
  - apply spawns_bind; [apply spawns_read_text | intros html].
    apply spawns_bind; [apply spawns_os_unlink | intros _; apply spawns_ret].
Qed.

End Axe.

(** C2: the temporary file outlives a failed run.  The auditor exits with
    1 and leaves the files alone: [run_node_axe] returns the error page,
    and the file it created, which was not there before, is still there.
    On the path for exit code 0 the same file is removed. *)
Theorem temp_file_left_after_failure :
  (exists w',
      @run_node_axe (Sim.sim_env (Sim.Runs 1 1 EmptyString "boom" None))
        "https://example.com" ["WCAG 2.0A"] "desktop" false Sim.fresh_world
      = (Return error_page, w')
      /\ fs Sim.fresh_world !! "/tmp/tmp0.html" = None
      /\ fs w' !! "/tmp/tmp0.html" = Some EmptyString
      /\ spawned w' = [axe_cmd "https://example.com" ["WCAG 2.0A"] "desktop"
                         "/tmp/tmp0.html" false]
      /\ ui w' = [StError "Error running accessibility test: boom"])
  /\ (exists w',
        @run_node_axe (Sim.sim_env (Sim.Runs 1 0 EmptyString EmptyString (Some "<html></html>")))
          "https://example.com" ["WCAG 2.0A"] "desktop" false Sim.fresh_world
        = (Return "<html></html>", w')
        /\ fs w' !! "/tmp/tmp0.html" = None).
Proof.
  split.
  - eexists. split.
    + apply (@run_node_axe_failed (Sim.sim_env (Sim.Runs 1 1 EmptyString "boom" None))
               _ _ _ _ Sim.fresh_world "/tmp/tmp0.html"
               (mk_completed 1 EmptyString "boom")
               (<["/tmp/tmp0.html" := EmptyString]> ∅));
        [vm_compute; reflexivity | reflexivity | discriminate].
    + repeat split; vm_compute; reflexivity.
  - eexists. split.
    + apply (@run_node_axe_ok
               (Sim.sim_env (Sim.Runs 1 0 EmptyString EmptyString (Some "<html></html>")))
               _ _ _ _ Sim.fresh_world "/tmp/tmp0.html"
               (mk_completed 0 EmptyString EmptyString)
               (<["/tmp/tmp0.html" := "<html></html>"]>
                  (<["/tmp/tmp0.html" := EmptyString]> ∅)) "<html></html>");
        [vm_compute; reflexivity | reflexivity | reflexivity | vm_compute; reflexivity].
    + vm_compute. reflexivity.
Qed.

Section Page.
Context `{E : Env}.

Lemma valid_url_nonempty (u : string) : is_valid_url u = true -> is_empty u = false.
Proof. destruct u; [discriminate | reflexivity]. Qed.

(** The three ways the page script ends without a run. *)
Lemma page_empty_url (i : widgets) (w : World) :
  is_empty (w_url i) = true -> page i w = (Return tt, w).
Proof. intros H. unfold page. rewrite H. reflexivity. Qed.

Lemma page_bad_url (i : widgets) (w : World) :
  is_empty (w_url i) = false -> is_valid_url (w_url i) = false ->
  page i w = (Return tt, shown w [StWarning bad_url_msg]).
Proof. intros H1 H2. unfold page. rewrite H1, H2. reflexivity. Qed.

Lemma page_no_standard (i : widgets) (w : World) :
  is_valid_url (w_url i) = true -> selected_standards i = [] ->
  page i w = (Return tt, shown w [StInfo select_standard_msg]).
Proof.
  intros H1 H2. unfold page.
  rewrite (valid_url_nonempty _ H1), H1, H2. reflexivity.
Qed.

(** Every auditor the page script spawns is for a valid URL and a
    non-empty list of standards. *)
Lemma page_spawns (i : widgets) :
  spawns_only
    (fun cmd =>
       is_valid_url (w_url i) = true /\ selected_standards i <> []
       /\ exists device out_file,
            cmd = axe_cmd (w_url i) (selected_standards i) device out_file
                    (w_keyboard_testing i))
    (page i).
Proof.
  unfold page. apply spawns_bind.
  { destruct (negb (is_empty (w_url i)) && negb (is_valid_url (w_url i)));
      [apply spawns_show | apply spawns_ret]. }
  intros _.
  destruct (negb (is_empty (w_url i)) && is_valid_url (w_url i)) eqn:Hc;
    [| apply spawns_ret].
  apply andb_true_iff in Hc as [_ Hv].
  destruct (selected_standards i) as [| s l] eqn:Hsel; [apply spawns_show |].
  apply spawns_bind; [apply spawns_show | intros _].
  destruct (w_button i); [| apply spawns_ret].
  assert (Hrun : forall device,
             spawns_only
               (fun cmd =>
                  is_valid_url (w_url i) = true /\ s :: l <> []
                  /\ exists device out_file,
                       cmd = axe_cmd (w_url i) (s :: l) device out_file
                               (w_keyboard_testing i))
               (run_node_axe (w_url i) (s :: l) device (w_keyboard_testing i))).
  { intros device. eapply spawns_weaken; [| apply run_node_axe_spawns].
    intros cmd (out_file & ->). repeat split; [exact Hv | discriminate | eauto]. }
  apply spawns_bind; [apply Hrun | intros desktop_html].
  apply spawns_bind; [apply Hrun | intros mobile_html].
  repeat (apply spawns_bind; [apply spawns_show | intros _]).
  apply spawns_show.
Qed.

(** C8: the page script runs the auditor only for a non-empty selection
    of standards: every command it spawns carries the joined, non-empty
    selection.  With an empty selection the script ends after its notes,
    with the files and the spawn log untouched, and for a valid URL the
    one note is the request to select a standard. *)
Theorem standards_required (i : widgets) (w : World) :
  (exists new,
      spawned (snd (page i w)) = (spawned w ++ new)%list
      /\ Forall (fun cmd =>
                   selected_standards i <> []
                   /\ exists device out_file,
                        cmd = axe_cmd (w_url i) (selected_standards i) device out_file
                                (w_keyboard_testing i)) new)
  /\ (selected_standards i = [] ->
      exists notes,
        page i w = (Return tt, shown w notes)
        /\ (is_valid_url (w_url i) = true -> notes = [StInfo select_standard_msg])).
Proof.
  split.
  - destruct (page_spawns i w) as (new & Hnew & Hall). exists new.
    split; [exact Hnew |]. eapply Forall_impl; [exact Hall |].
    intros cmd (_ & Hsel & Hcmd). auto.
  - intros Hsel. destruct (is_empty (w_url i)) eqn:He.
    + exists []. rewrite (page_empty_url _ _ He). split.
      * unfold shown. rewrite app_nil_r. now destruct w.
      * intros Hv. rewrite (valid_url_nonempty _ Hv) in He. discriminate.
    + destruct (is_valid_url (w_url i)) eqn:Hv.
      * exists [StInfo select_standard_msg].
        now rewrite (page_no_standard _ _ Hv Hsel).
      * exists [StWarning bad_url_msg]. rewrite (page_bad_url _ _ He Hv).
        split; [reflexivity | discriminate].
Qed.

End Page.

Lemma standards_required_witness :
  exists notes,
    @page (Sim.sim_env Sim.NotInstalled)
      (mk_widgets "https://example.com" false false false false false true)
      Sim.fresh_world
    = (Return tt, shown Sim.fresh_world notes)
    /\ (is_valid_url "https://example.com" = true
        -> notes = [StInfo select_standard_msg]).
Proof.
  apply (proj2 (@standards_required (Sim.sim_env Sim.NotInstalled)
                  (mk_widgets "https://example.com" false false false false false true)
                  Sim.fresh_world)).
  reflexivity.
Defined.

End DispatchProofs.

(* ===================================================================== *)
(** ** Which URLs reach the auditor, in both front-ends *)
(* ===================================================================== *)

Module FrontEndProofs.
Import PyStr PyStrFacts Sim AccessibilityTester StreamlitA11yApp Spawns SpawnFacts
       AppProofs DispatchProofs.

Lemma nonempty_neq (u : string) : is_empty u = false <-> u <> EmptyString.
Proof. destruct u; simpl; split; congruence. Qed.

Section Main.
Context `{E : Env}.

Lemma main_halves (url : string) (button : bool) :
  main url button = (sidebar url button ;; pending).
Proof. reflexivity. Qed.

Lemma pending_idle (w : World) :
  run_test (session w) <> Some true ->
  pending w = (Return tt, shown w [StInfo idle_msg]).
Proof.
  intros H. unfold pending, mbind, M_bind, bind, get_world.
  destruct (run_test (session w)) as [[|] |]; [congruence | reflexivity | reflexivity].
Qed.

(** A pending test spawns the auditor for its URL, once, and leaves the
    URL of the session as it is. *)
Lemma pending_runs (w : World) (u : string) :
  run_test (session w) = Some true -> test_url (session w) = Some u ->
  spawned (snd (pending w)) = (spawned w ++ [check_cmd u])%list
  /\ test_url (session (snd (pending w))) = Some u.
Proof.
  intros Hrt Hu. unfold pending, mbind, M_bind, bind, get_world.
  rewrite Hrt, Hu. cbn.
  match goal with
  | |- context [run_accessibility_check u ?w1] =>
      destruct (check_world u w1) as [files Hw];
      destruct (run_accessibility_check u w1) as [[result | e] w2]
  end; simpl in Hw; subst w2; cbn.
  - unfold lift. destruct (snd (present_result result)) as [[] | e]; cbn; auto.
  - auto.
Qed.

Lemma pending_ok (w : World) :
  session_ok (session w) ->
  session_ok (session (snd (pending w)))
  /\ extends (fun cmd => exists u, cmd = check_cmd u /\ u <> EmptyString)
       w (snd (pending w)).
Proof.
  intros Hok. destruct (run_test (session w)) as [[|] |] eqn:Hrt.
  - destruct (Hok Hrt) as (u & Hu & Hne).
    destruct (pending_runs w u Hrt Hu) as [Hs Ht]. split.
    + intros _. eauto.
    + exists [check_cmd u]. split; [exact Hs |]. constructor; [eauto | constructor].
  - rewrite pending_idle by congruence. split; [exact Hok | now apply extends_same].
  - rewrite pending_idle by congruence. split; [exact Hok | now apply extends_same].
Qed.

(** One run of [main]: the invariant is kept, and every auditor spawned is
    for a non-empty URL. *)
Lemma main_ok (url : string) (button : bool) (w : World) :
  session_ok (session w) ->
  session_ok (session (snd (main url button w)))
  /\ extends (fun cmd => exists u, cmd = check_cmd u /\ u <> EmptyString)
       w (snd (main url button w)).
Proof.
  intros Hok. rewrite main_halves. unfold mbind, M_bind, bind.
  assert (Hside : exists w1, sidebar url button w = (Return tt, w1)
                             /\ spawned w1 = spawned w /\ session_ok (session w1)).
  { unfold sidebar. destruct button; [| eauto].
    destruct (is_empty url) eqn:He; cbn.
    - eexists. split; [reflexivity |]. split; [reflexivity | exact Hok].
    - eexists. split; [reflexivity |]. split; [reflexivity |].
      intros _. exists url. split; [reflexivity | now apply nonempty_neq]. }
  destruct Hside as (w1 & -> & Hs & Hok1).
  destruct (pending_ok w1 Hok1) as [H1 (new & H2 & H3)]. split; [exact H1 |].
  exists new. rewrite <- Hs. auto.
Qed.

(** The button with any non-empty URL starts the auditor for that URL. *)
Lemma main_dispatches (url : string) (w : World) :
  url <> EmptyString ->
  spawned (snd (main url true w)) = (spawned w ++ [check_cmd url])%list.
Proof.
  intros Hne. rewrite main_halves. unfold mbind, M_bind, bind, sidebar.
  apply nonempty_neq in Hne. rewrite Hne. cbn.
  match goal with
  | |- spawned (snd (pending ?w1)) = _ =>
      destruct (pending_runs w1 url eq_refl eq_refl) as [H _]; exact H
  end.
Qed.

(** The button with an empty URL, and no test pending: the error is shown
    and nothing runs. *)
Lemma main_empty_url (w : World) :
  run_test (session w) <> Some true ->
  main EmptyString true w = (Return tt, shown w [StError enter_url_msg; StInfo idle_msg]).
Proof.
  intros H. rewrite main_halves. unfold mbind, M_bind, bind, sidebar. cbn.
  rewrite pending_idle by exact H. unfold shown. cbn.
  now rewrite <- app_assoc.
Qed.

End Main.

(** C9 (amended): in the file-mode front-end every auditor that is spawned
    is for a URL that passes [is_valid_url], and a non-empty URL that does
    not pass is answered with the warning and nothing else.  In the
    JSON-mode front-end the URL only has to be non-empty: over all runs of
    [main] from a fresh session every auditor spawned is for a non-empty
    URL, the button with any non-empty URL spawns the auditor for it, and
    the button with the empty URL shows [Please enter a URL] and spawns
    nothing. *)
Theorem url_gate `{E : Env} :
  (forall (i : widgets) (w : World),
      (exists new,
          spawned (snd (page i w)) = (spawned w ++ new)%list
          /\ Forall (fun cmd =>
                       is_valid_url (w_url i) = true
                       /\ exists device out_file,
                            cmd = axe_cmd (w_url i) (selected_standards i) device
                                    out_file (w_keyboard_testing i)) new)
      /\ (is_empty (w_url i) = false -> is_valid_url (w_url i) = false ->
          page i w = (Return tt, shown w [StWarning bad_url_msg])))
  /\ session_ok {| test_url := None; run_test := None |}
  /\ (forall (url : string) (button : bool) (w : World),
        session_ok (session w) ->
        session_ok (session (snd (main url button w)))
        /\ exists new,
             spawned (snd (main url button w)) = (spawned w ++ new)%list
             /\ Forall (fun cmd => exists u, cmd = check_cmd u /\ u <> EmptyString) new)
  /\ (forall (url : string) (w : World),
        url <> EmptyString ->
        spawned (snd (main url true w)) = (spawned w ++ [check_cmd url])%list)
  /\ (forall w : World,
        run_test (session w) <> Some true ->
        main EmptyString true w
        = (Return tt, shown w [StError enter_url_msg; StInfo idle_msg])).
Proof.
  split; [| split; [| split; [| split]]].
  - intros i w. split.
    + destruct (page_spawns i w) as (new & Hnew & Hall). exists new.
      split; [exact Hnew |]. eapply Forall_impl; [exact Hall |].
      intros cmd (Hv & _ & Hcmd). auto.
    + apply page_bad_url.
  - intros H. discriminate H.
  - intros url button w Hok. destruct (main_ok url button w Hok) as [H1 H2]. auto.
  - apply main_dispatches.
  - apply main_empty_url.
Qed.

(** C9, as stated, fails in the JSON-mode front-end: with the URL
    [ftp://x], which [is_valid_url] rejects, the button spawns the auditor
    for that URL, and no warning about the URL is shown. *)
Lemma json_mode_runs_invalid_url :
  is_valid_url "ftp://x" = false
  /\ exists o w',
       @main (Sim.sim_env boom_auditor) "ftp://x" true Sim.fresh_world = (o, w')
       /\ spawned w' = [check_cmd "ftp://x"]
       /\ ui w' = [StHeader "Testing: ftp://x";
                   StError "Failed to check accessibility: boom"].
Proof.
  split; [reflexivity |]. eexists. eexists.
  split; [reflexivity |]. split; vm_compute; reflexivity.
Qed.

Lemma url_gate_witness :
  spawned (snd (@main (Sim.sim_env boom_auditor) "ftp://x" true Sim.fresh_world))
  = (spawned Sim.fresh_world ++ [check_cmd "ftp://x"])%list
  /\ @page (Sim.sim_env boom_auditor)
       (mk_widgets "ftp://x" true false false false false true) Sim.fresh_world
     = (Return tt, shown Sim.fresh_world [StWarning bad_url_msg]).
Proof.
  split.
  - apply (proj1 (proj2 (proj2 (proj2 (@url_gate (Sim.sim_env boom_auditor)))))).
    discriminate.
  - apply (proj2 (proj1 (@url_gate (Sim.sim_env boom_auditor))
                    (mk_widgets "ftp://x" true false false false false true)
                    Sim.fresh_world)); reflexivity.
Defined.

End FrontEndProofs.

(* ===================================================================== *)
(** ** More on [replace]: what an insertion cannot create *)
(* ===================================================================== *)

Module InsertFacts.
Import PyStr PyStrFacts.

Lemma has_char_cons (c d : ascii) (x : string) :
  has_char c (String d x) = false -> d <> c /\ has_char c x = false.
Proof.
  simpl. intros H. apply orb_false_iff in H as [H1 H2]. split; [| exact H2].
  intros ->. now rewrite Ascii.eqb_refl in H1.
Qed.

(** A string without the byte [c] that starts [u ++ c...] starts [u]. *)
Lemma startswith_before (u v x : string) (c : ascii) :
  has_char c x = false ->
  startswith (u ++ String c v) x = true -> startswith u x = true.
Proof.
  revert u; induction x as [|d x IH]; intros u Hc H; [reflexivity |].
  apply has_char_cons in Hc as [Hd Hx].
  destruct u as [|e u]; simpl in *.
  - apply andb_true_iff in H as [H _]. apply Ascii.eqb_eq in H. congruence.
  - apply andb_true_iff in H as [H1 H2]. rewrite H1. simpl. now apply IH.
Qed.

(** An occurrence in [u ++ v] lies in [v] or begins in [u]. *)
Lemma str_in_app_inv (x u v : string) :
  str_in x (u ++ v) = true ->
  str_in x v = true
  \/ exists u1 u2, u = u1 ++ u2 /\ u2 <> EmptyString /\ startswith (u2 ++ v) x = true.
Proof.
  induction u as [|c u IH]; intros H; [now left |].
  change (String c u ++ v) with (String c (u ++ v)) in H.
  apply str_in_cons_inv in H as [H | H].
  - right. exists EmptyString, (String c u). repeat split; [discriminate | exact H].
  - destruct (IH H) as [Hv | (u1 & u2 & -> & Hne & Hs)]; [now left |].
    right. exists (String c u1), u2. repeat split; assumption.
Qed.

Lemma suffix_ends (i1 i2 mid : string) (z : ascii) :
  i1 ++ i2 = mid ++ String z EmptyString -> i2 <> EmptyString ->
  exists i2', i2 = i2' ++ String z EmptyString.
Proof.
  revert mid; induction i1 as [|c i1 IH]; intros mid H Hne; simpl in H.
  - subst i2. eauto.
  - destruct mid as [|d mid]; simpl in H.
    + inversion H as [[Hc Hr]]. destruct i1; simpl in Hr; [| discriminate].
      congruence.
    + inversion H as [[Hc Hr]]. eapply IH; eauto.
Qed.

(** A string without the byte [a] that starts the result of an insertion
    beginning with [a] starts the subject. *)
Lemma startswith_replaced (old rest1 : string) (a : ascii) (x s : string) :
  is_empty old = false ->
  has_char a x = false ->
  startswith (replace s old (old ++ String a rest1)) x = true ->
  startswith s x = true.
Proof.
  intros Hold. revert x.
  apply (replace_ind old (old ++ String a rest1) Hold
           (fun s r => forall x, has_char a x = false ->
                                 startswith r x = true -> startswith s x = true)).
  - intros x _ H. exact H.
  - intros rest _ x Hx H. rewrite app_assoc_s in H.
    apply startswith_app_l. eapply startswith_before; eauto.
  - intros c t _ IH x Hx H. destruct x as [|d x]; [reflexivity |].
    apply has_char_cons in Hx as [_ Hx]. simpl in *.
    apply andb_true_iff in H as [H1 H2]. rewrite H1. simpl. now apply IH.
Qed.

Section Insert.
(** [old] is replaced by itself followed by [ins], which begins with the
    byte [a] and ends with the byte [z]. *)
Variables (old mid : string) (a z : ascii).
Hypothesis old_nonempty : is_empty old = false.

Let ins : string := String a (mid ++ String z EmptyString).
Let new : string := old ++ ins.

(** A string without [a] and [z] that does not occur in [ins] occurs in
    the result only where it occurred in the subject. *)
Lemma replace_creates_nothing (x s : string) :
  has_char a x = false -> has_char z x = false -> str_in x ins = false ->
  str_in x (replace s old new) = true -> str_in x s = true.
Proof.
  intros Ha Hz Hi.
  remember (String.length s) as n eqn:Hn. revert s Hn.
  induction n as [n IH] using lt_wf_ind. intros s Hn H.
  destruct s as [|c s]; [now rewrite replace_nil in H |].
  destruct (startswith (String c s) old) eqn:Hc.
  - rewrite (startswith_split _ _ Hc) in H |- *.
    rewrite replace_hit_app in H by exact old_nonempty.
    unfold new in H. rewrite app_assoc_s in H.
    apply str_in_app_inv in H as [H | (u1 & u2 & Hu & Hne & Hs)].
    + apply str_in_app_inv in H as [H | (i1 & i2 & Hins & Hne & Hs)].
      * apply str_in_app_r.
        apply (IH (String.length (drop (String.length old) (String c s))));
          [| reflexivity | exact H].
        rewrite len_drop. destruct (old_split old old_nonempty) as (o1 & o2 & Ho).
        rewrite Ho. subst n. simpl. lia.
      * exfalso. unfold ins in Hins.
        change (String a (mid ++ String z EmptyString))
          with (String a mid ++ String z EmptyString) in Hins.
        symmetry in Hins.
        destruct (suffix_ends _ _ _ _ Hins Hne) as (i2' & ->).
        rewrite app_assoc_s in Hs. simpl in Hs.
        apply startswith_before in Hs; [| exact Hz].
        assert (Hocc : str_in x ins = true).
        { unfold ins.
          change (String a (mid ++ String z EmptyString))
            with (String a mid ++ String z EmptyString).
          rewrite <- Hins. apply str_in_app_r, str_in_app_l. now apply str_in_here. }
        congruence.
    + unfold ins in Hs. apply startswith_before in Hs; [| exact Ha].
      apply str_in_app_l. rewrite Hu. apply str_in_app_r. now apply str_in_here.
  - rewrite replace_miss in H by assumption.
    apply str_in_cons_inv in H as [H | H].
    + rewrite <- (replace_miss old new old_nonempty c s Hc) in H.
      apply str_in_here.
      now apply (startswith_replaced old (mid ++ String z EmptyString) a).
    + apply str_in_cons.
      apply (IH (String.length s)); [subst n; simpl; lia | reflexivity | exact H].
Qed.

End Insert.

(** Two insertions behind [old], one after the other, are one insertion of
    both texts, the later one first. *)
Lemma replace_twice (old i1 i2 : string) (a : ascii) (rest1 s : string) :
  is_empty old = false ->
  i1 = String a rest1 -> has_char a old = false ->
  suffixes_clash i1 old = true ->
  replace (replace s old (old ++ i1)) old (old ++ i2)
  = replace s old (old ++ i2 ++ i1).
Proof.
  intros Hold Hi1 Ha Hclash.
  apply (replace_ind old (old ++ i2 ++ i1) Hold
           (fun s r => replace (replace s old (old ++ i1)) old (old ++ i2) = r)).
  - now rewrite !replace_nil.
  - intros rest IH.
    rewrite replace_hit_app by exact Hold.
    rewrite !app_assoc_s, replace_hit_app by exact Hold.
    rewrite replace_skip by assumption. now rewrite IH, !app_assoc_s.
  - intros c t Hc IH. rewrite replace_miss by assumption.
    rewrite replace_miss; [now rewrite IH | exact Hold |].
    destruct (startswith (String c (replace t old (old ++ i1))) old) eqn:Hs;
      [| reflexivity].
    rewrite <- (replace_miss old (old ++ i1) Hold c t Hc) in Hs.
    rewrite Hi1 in Hs. apply startswith_replaced in Hs; [congruence | assumption..].
Qed.

End InsertFacts.

(* ===================================================================== *)
(** ** accessibility_tester.py: more on [render_html] and [is_valid_url] *)
(* ===================================================================== *)

Module EmbedProofs.
Import PyStr PyRe PyStrFacts InsertFacts AccessibilityTester TesterProofs.

Lemma add_doctype_head (h : string) :
  str_in "<head>" (add_doctype h) = str_in "<head>" h.
Proof.
  destruct (str_in "<head>" h) eqn:H.
  - now apply add_doctype_keeps.
  - now apply add_doctype_no_head.
Qed.

Lemma rule_head_eq (marker tag s : string) :
  str_in "<head>" (rule marker tag s) = str_in "<head>" s.
Proof.
  destruct (str_in "<head>" s) eqn:H.
  - now apply rule_head.
  - now rewrite rule_no_head.
Qed.

(** X1: whatever the input, the page [render_html] returns passes the
    doctype test of the first rule, has a [<head>] exactly when the input
    has one, and if it has one it holds the three markers the guards look
    for. *)
Theorem render_html_postcondition (h : string) :
  startswith (strip (render_html h)) "<!DOCTYPE" = true
  /\ str_in "<head>" (render_html h) = str_in "<head>" h
  /\ (str_in "<head>" h = true ->
      str_in "<meta charset=" (render_html h) = true
      /\ str_in "viewport" (render_html h) = true
      /\ str_in "Content-Security-Policy" (render_html h) = true).
Proof.
  destruct (render_html_is_settled h) as [Hd Hm].
  assert (Hh : str_in "<head>" (render_html h) = str_in "<head>" h).
  { rewrite render_html_stages, add_charset_rule, add_viewport_rule, add_csp_rule.
    now rewrite !rule_head_eq, add_doctype_head. }
  split; [exact Hd |]. split; [exact Hh |].
  intros H. apply Hm. now rewrite Hh.
Qed.

Lemma render_html_postcondition_witness :
  str_in "<meta charset=" (render_html "<head>") = true
  /\ str_in "viewport" (render_html "<head>") = true
  /\ str_in "Content-Security-Policy" (render_html "<head>") = true.
Proof.
  apply (proj2 (proj2 (render_html_postcondition "<head>"))). reflexivity.
Defined.

(** X2: the pages [render_html] leaves as they are are exactly the pages
    that pass the doctype test and, if they have a [<head>], hold the three
    markers. *)
Theorem render_html_fixed_points (h : string) :
  render_html h = h
  <-> (startswith (strip h) "<!DOCTYPE" = true
       /\ (str_in "<head>" h = true ->
           str_in "<meta charset=" h = true /\ str_in "viewport" h = true
           /\ str_in "Content-Security-Policy" h = true)).
Proof.
  split.
  - intros H. rewrite <- H. apply render_html_is_settled.
  - intros H. now apply render_html_settled.
Qed.

(** X4: [render_html] only inserts: a text that occurs in the input and
    cannot overlap [<head>] occurs in the output. *)
Theorem render_html_keeps (x h : string) :
  suffixes_clash x "<head>" = true -> suffixes_clash "<head>" x = true ->
  str_in x h = true -> str_in x (render_html h) = true.
Proof.
  intros H1 H2 H.
  rewrite render_html_stages, add_charset_rule, add_viewport_rule, add_csp_rule.
  do 3 (apply rule_keeps; [exact H1 | exact H2 |]).
  now apply add_doctype_keeps.
Qed.

Lemma render_html_keeps_witness :
  str_in "<body>x</body>" (render_html "<html><head></head><body>x</body></html>")
  = true.
Proof.
  apply (render_html_keeps "<body>x</body>"
           "<html><head></head><body>x</body></html>"); reflexivity.
Defined.

(** The doctype line creates no occurrence of what clashes with it. *)
Lemma add_doctype_creates_nothing (x h : string) :
  suffixes_clash ("<!DOCTYPE html>" ++ nl) x = true ->
  str_in x h = false -> str_in x (add_doctype h) = false.
Proof.
  intros Hc H. unfold add_doctype.
  destruct (negb (startswith (strip h) "<!DOCTYPE")); [| exact H].
  rewrite <- app_assoc_s.
  destruct (str_in x (("<!DOCTYPE html>" ++ nl) ++ h)) eqn:Hp; [| reflexivity].
  apply str_in_behind in Hp; [congruence | exact Hc].
Qed.

(** An insertion behind [<head>] creates no occurrence of a text that has
    neither a newline nor [>] and is not in the inserted tag. *)
Lemma in_head_creates_nothing (tag mid x s : string) :
  nl ++ "    " ++ tag = String "010" (mid ++ String ">" EmptyString) ->
  has_char "010" x = false -> has_char ">" x = false ->
  str_in x (nl ++ "    " ++ tag) = false ->
  str_in x s = false -> str_in x (in_head tag s) = false.
Proof.
  intros Heq Ha Hz Hi H. unfold in_head. rewrite Heq in *.
  destruct (str_in x (replace s "<head>"
                        ("<head>" ++ String "010" (mid ++ String ">" EmptyString))))
    eqn:Hp; [| reflexivity].
  apply replace_creates_nothing in Hp; [congruence | reflexivity | assumption..].
Qed.

Lemma charset_shape :
  nl ++ "    " ++ charset_meta
  = String "010" (("    <meta charset=" ++ dq ++ "UTF-8" ++ dq) ++ String ">" EmptyString).
Proof. reflexivity. Qed.

Lemma viewport_shape :
  nl ++ "    " ++ viewport_meta
  = String "010"
      (("    <meta name=" ++ dq ++ "viewport" ++ dq ++ " content=" ++ dq
        ++ "width=device-width, initial-scale=1.0" ++ dq) ++ String ">" EmptyString).
Proof. reflexivity. Qed.

(** The three insertions on a page that has none of the markers. *)
Lemma fresh_stages (h : string) :
  str_in "<meta charset=" h = false -> str_in "viewport" h = false ->
  str_in "Content-Security-Policy" h = false ->
  render_html h
  = in_head csp_meta (in_head viewport_meta (in_head charset_meta (add_doctype h))).
Proof.
  intros Hc Hv Hp. rewrite render_html_stages.
  apply add_doctype_creates_nothing in Hc; [| reflexivity].
  apply add_doctype_creates_nothing in Hv; [| reflexivity].
  apply add_doctype_creates_nothing in Hp; [| reflexivity].
  set (h1 := add_doctype h) in *.
  assert (E2 : add_charset h1 = in_head charset_meta h1)
    by (unfold add_charset; now rewrite Hc).
  rewrite E2.
  assert (Hv2 : str_in "viewport" (in_head charset_meta h1) = false)
    by (eapply in_head_creates_nothing; [apply charset_shape | reflexivity..| exact Hv]).
  assert (Hp2 : str_in "Content-Security-Policy" (in_head charset_meta h1) = false)
    by (eapply in_head_creates_nothing; [apply charset_shape | reflexivity..| exact Hp]).
  assert (E3 : add_viewport (in_head charset_meta h1)
               = in_head viewport_meta (in_head charset_meta h1))
    by (unfold add_viewport; now rewrite Hv2).
  rewrite E3.
  assert (Hp3 : str_in "Content-Security-Policy"
                  (in_head viewport_meta (in_head charset_meta h1)) = false)
    by (eapply in_head_creates_nothing; [apply viewport_shape | reflexivity..| exact Hp2]).
  unfold add_csp. now rewrite Hp3.
Qed.

Lemma three_insertions (s : string) :
  in_head csp_meta (in_head viewport_meta (in_head charset_meta s))
  = replace s "<head>" ("<head>" ++ three_tags).
Proof.
  unfold in_head.
  rewrite (replace_twice "<head>" (nl ++ "    " ++ charset_meta)
             (nl ++ "    " ++ viewport_meta) "010" ("    " ++ charset_meta) s)
    by reflexivity.
  rewrite (replace_twice "<head>"
             ((nl ++ "    " ++ viewport_meta) ++ nl ++ "    " ++ charset_meta)
             (nl ++ "    " ++ csp_meta) "010"
             (("    " ++ viewport_meta) ++ nl ++ "    " ++ charset_meta) s)
    by reflexivity.
  reflexivity.
Qed.

(** X3: on a page that has none of the three markers all three rules act,
    and together they put the three tags behind every [<head>], the CSP tag
    first, then the viewport tag, then the charset tag; with a single
    [<head>] the result is the input with the doctype line in front, when
    it lacks one, and the three tags behind [<head>]. *)
Theorem render_html_fresh_page (h : string) :
  str_in "<meta charset=" h = false -> str_in "viewport" h = false ->
  str_in "Content-Security-Policy" h = false ->
  render_html h = replace (add_doctype h) "<head>" ("<head>" ++ three_tags)
  /\ forall pre post,
       h = pre ++ "<head>" ++ post ->
       str_in "<head>" pre = false -> str_in "<head>" post = false ->
       render_html h
       = (if startswith (strip h) "<!DOCTYPE" then EmptyString
          else "<!DOCTYPE html>" ++ nl)
         ++ pre ++ "<head>" ++ three_tags ++ post.
Proof.
  intros Hc Hv Hp.
  assert (Hall : render_html h
                 = replace (add_doctype h) "<head>" ("<head>" ++ three_tags))
    by (rewrite fresh_stages by assumption; apply three_insertions).
  split; [exact Hall |].
  intros pre post Hh Hpre Hpost. rewrite Hall.
  set (lead := if startswith (strip h) "<!DOCTYPE" then EmptyString
               else "<!DOCTYPE html>" ++ nl).
  assert (Hd : add_doctype h = (lead ++ pre) ++ "<head>" ++ post).
  { unfold add_doctype, lead. rewrite app_assoc_s, <- Hh.
    destruct (startswith (strip h) "<!DOCTYPE"); cbn [negb];
      [reflexivity | now rewrite app_assoc_s]. }
  assert (Hlead : str_in "<head>" (lead ++ pre) = false).
  { unfold lead. destruct (startswith (strip h) "<!DOCTYPE"); [exact Hpre |].
    destruct (str_in "<head>" (("<!DOCTYPE html>" ++ nl) ++ pre)) eqn:Hq;
      [| reflexivity].
    apply str_in_behind in Hq; [congruence | reflexivity]. }
  rewrite Hd, replace_every by reflexivity.
  rewrite !replace_absent by (reflexivity || assumption).
  now rewrite !app_assoc_s.
Qed.

Lemma render_html_fresh_page_witness :
  render_html "<html><head></head></html>"
  = replace (add_doctype "<html><head></head></html>") "<head>"
      ("<head>" ++ three_tags).
Proof.
  apply (proj1 (render_html_fresh_page "<html><head></head></html>"
                  eq_refl eq_refl eq_refl)).
Defined.

(** The prefix test behind [lstrip] is not undone by what is appended. *)
Lemma lstrip_prefix_app (c : ascii) (p u t : string) :
  solid c = true ->
  startswith (lstrip u) (String c p) = true ->
  startswith (lstrip (u ++ t)) (String c p) = true.
Proof.
  intros Hc.
  remember (String.length u) as n eqn:Hn. revert u Hn.
  induction n as [n IH] using lt_wf_ind. intros u Hn H.
  destruct (lstrip_cases u) as [Hu | (w & r & Hu & Hw & Hh & Hx)].
  - rewrite Hu in H. destruct u as [|d u]; [discriminate |].
    assert (d = c) as ->.
    { simpl in H. apply andb_true_iff in H as [H _].
      apply Ascii.eqb_eq in H. congruence. }
    change (String c u ++ t) with (String c (u ++ t)).
    rewrite lstrip_solid by exact Hc.
    change (String c (u ++ t)) with (String c u ++ t). now apply startswith_app_l.
  - subst u. rewrite Hx in H. rewrite app_assoc_s, Hx.
    apply (IH (String.length r)); [| reflexivity | exact H].
    rewrite Hn, len_app. lia.
Qed.

(** X5: nothing behind the scheme is checked: a URL that [is_valid_url]
    accepts is still accepted with anything appended to it. *)
Theorem is_valid_url_extends (u t : string) :
  is_valid_url u = true -> is_valid_url (u ++ t) = true.
Proof.
  unfold is_valid_url. rewrite !scheme_pattern.
  rewrite !(strip_startswith "http://"), !(strip_startswith "https://")
    by reflexivity.
  intros H. apply orb_true_iff in H. apply orb_true_iff.
  destruct H as [H | H]; [left | right];
    apply lstrip_prefix_app; (reflexivity || exact H).
Qed.

Lemma is_valid_url_extends_witness :
  is_valid_url ("  https://" ++ " not a host <>") = true.
Proof. apply (is_valid_url_extends "  https://" " not a host <>"). reflexivity. Defined.

End EmbedProofs.

(* ===================================================================== *)
(** ** accessibility_tester.py: more on [run_node_axe] *)
(* ===================================================================== *)

Module AxeProofs.
Import PyStr PyStrFacts AccessibilityTester Spawns SpawnFacts DispatchProofs.

Lemma str_in_mid (x a b : string) : str_in x (a ++ x ++ b) = true.
Proof. apply str_in_app_r, str_in_here, startswith_app. Qed.

Section Axe.
Context `{E : Env}.
Variables (url : string) (standards_list : list string) (device_type : string)
          (keyboard_testing : bool).

Lemma axe_temp_raises (w : World) (e : exn) :
  temp_name (fs w) ".html" = Raise e ->
  run_node_axe url standards_list device_type keyboard_testing w = (Raise e, w).
Proof.
  intros H.
  unfold run_node_axe, named_temporary_file, mbind, M_bind, bind, get_world, lift.
  rewrite H. reflexivity.
Qed.

Lemma axe_spawn_raises (w : World) (path : string) (e : exn)
    (files : gmap string string) :
  temp_name (fs w) ".html" = Return path ->
  run_process (axe_cmd url standards_list device_type path keyboard_testing) None
    (<[path := EmptyString]> (fs w)) = (Raise e, files) ->
  run_node_axe url standards_list device_type keyboard_testing w
  = (Raise e,
     {| fs := files;
        spawned := (spawned w
                    ++ [axe_cmd url standards_list device_type path keyboard_testing])%list;
        ui := ui w; session := session w |}).
Proof.
  intros Htmp Hrun.
  unfold run_node_axe, named_temporary_file, subprocess_run, mbind, M_bind, bind,
    get_world, lift, set_fs.
  rewrite Htmp. cbn. fold (axe_cmd url standards_list device_type path keyboard_testing).
  rewrite Hrun. reflexivity.
Qed.

Lemma axe_report_missing (w : World) (path : string) (cp : CompletedProcess)
    (files : gmap string string) :
  temp_name (fs w) ".html" = Return path ->
  run_process (axe_cmd url standards_list device_type path keyboard_testing) None
    (<[path := EmptyString]> (fs w)) = (Return cp, files) ->
  returncode cp = 0%Z ->
  files !! path = None ->
  run_node_axe url standards_list device_type keyboard_testing w
  = (Raise (mk_exn FileNotFoundError
              ("[Errno 2] No such file or directory: '" ++ path ++ "'")),
     {| fs := files;
        spawned := (spawned w
                    ++ [axe_cmd url standards_list device_type path keyboard_testing])%list;
        ui := ui w; session := session w |}).
Proof.
  intros Htmp Hrun Hrc Hfile.
  unfold run_node_axe, named_temporary_file, subprocess_run, mbind, M_bind, bind,
    get_world, lift, set_fs.
  rewrite Htmp. cbn. fold (axe_cmd url standards_list device_type path keyboard_testing).
  rewrite Hrun, Hrc. cbn. unfold read_text, mbind, M_bind, bind, get_world.
  cbn. rewrite Hfile. reflexivity.
Qed.


(** X7: [run_node_axe] spawns one process per call, with the words
    [node a11y_audit.js url standards device out_file flag], as soon as the
    temporary file could be created, however the call ends; if the file
    cannot be created the call raises that error and has done nothing. *)
Theorem run_node_axe_spawns_once (w : World) :
  (forall path,
      temp_name (fs w) ".html" = Return path ->
      spawned (snd (run_node_axe url standards_list device_type keyboard_testing w))
      = (spawned w
         ++ [["node"; "a11y_audit.js"; url; join "," standards_list; device_type;
              path; if keyboard_testing then "true" else "false"]])%list)
  /\ (forall e,
        temp_name (fs w) ".html" = Raise e ->
        run_node_axe url standards_list device_type keyboard_testing w = (Raise e, w)).
Proof.
  split; [| apply axe_temp_raises].
  intros path Htmp.
  destruct (run_process (axe_cmd url standards_list device_type path keyboard_testing)
              None (<[path := EmptyString]> (fs w))) as [[cp | e] files] eqn:Hrun.
  - destruct (Z.eq_dec (returncode cp) 0%Z) as [Hrc | Hrc].
    + destruct (files !! path) as [html |] eqn:Hfile.
      * now rewrite (run_node_axe_ok _ _ _ _ _ _ _ _ _ Htmp Hrun Hrc Hfile).
      * now rewrite (axe_report_missing _ _ _ _ Htmp Hrun Hrc Hfile).
    + now rewrite (run_node_axe_failed _ _ _ _ _ _ _ _ Htmp Hrun Hrc).
  - now rewrite (axe_spawn_raises _ _ _ _ Htmp Hrun).
Qed.

(** X8: [run_node_axe] handles no exception: what [subprocess.run] raises
    (a missing [node], say) reaches the caller as it is; nothing is shown,
    and the files are left as they were at that moment, the temporary file
    included. *)
Theorem run_node_axe_propagates (w : World) (path : string) (e : exn)
    (files : gmap string string) :
  temp_name (fs w) ".html" = Return path ->
  run_process (axe_cmd url standards_list device_type path keyboard_testing) None
    (<[path := EmptyString]> (fs w)) = (Raise e, files) ->
  exists w',
    run_node_axe url standards_list device_type keyboard_testing w = (Raise e, w')
    /\ fs w' = files /\ ui w' = ui w
    /\ (files = <[path := EmptyString]> (fs w) -> fs w' !! path = Some EmptyString).
Proof.
  intros Htmp Hrun. eexists. split; [exact (axe_spawn_raises w path e files Htmp Hrun) |].
  cbn. repeat split. intros ->. apply lookup_insert_eq.
Qed.

(** X9: when the auditor exits with 0 but the temporary file is gone,
    [run_node_axe] raises [FileNotFoundError] for that path instead of
    returning a page. *)
Theorem run_node_axe_report_missing (w : World) (path : string)
    (cp : CompletedProcess) (files : gmap string string) :
  temp_name (fs w) ".html" = Return path ->
  run_process (axe_cmd url standards_list device_type path keyboard_testing) None
    (<[path := EmptyString]> (fs w)) = (Return cp, files) ->
  returncode cp = 0%Z ->
  files !! path = None ->
  exists e w',
    run_node_axe url standards_list device_type keyboard_testing w = (Raise e, w')
    /\ exn_class_of e = FileNotFoundError
    /\ str_in path (exn_str e) = true
    /\ ui w' = ui w.
Proof.
  intros Htmp Hrun Hrc Hfile. eexists. eexists.
  split; [exact (axe_report_missing w path cp files Htmp Hrun Hrc Hfile) |].
  split; [reflexivity |]. split; [| reflexivity].
  exact (str_in_mid path "[Errno 2] No such file or directory: '" "'").
Qed.

End Axe.

End AxeProofs.

(* ===================================================================== *)
(** ** What a computation shows *)
(* ===================================================================== *)

Module ShowFacts.
Import Spawns.

Lemma shows_same {A} (Q : ui_event -> Prop) (m : M A) :
  (forall w, ui (snd (m w)) = ui w) -> shows_only Q m.
Proof.
  intros H w. exists []. rewrite H, app_nil_r. split; [reflexivity | constructor].
Qed.

Section Rules.
Context `{E : Env}.
Variable Q : ui_event -> Prop.

Lemma shows_ret {A} (a : A) : shows_only Q (mret a).
Proof. now apply shows_same. Qed.

Lemma shows_raise {A} (e : exn) : shows_only Q (@raise A e).
Proof. now apply shows_same. Qed.

Lemma shows_lift {A} (o : outcome A) : shows_only Q (lift o).
Proof. now apply shows_same. Qed.

Lemma shows_get_world : shows_only Q get_world.
Proof. now apply shows_same. Qed.

Lemma shows_set_fs (f : gmap string string) : shows_only Q (set_fs f).
Proof. now apply shows_same. Qed.

Lemma shows_show (e : ui_event) : Q e -> shows_only Q (show e).
Proof. intros H w. exists [e]. split; [reflexivity | now constructor]. Qed.

Lemma shows_bind {A B} (m : M A) (k : A -> M B) :
  shows_only Q m -> (forall a, shows_only Q (k a)) -> shows_only Q (m ≫= k).
Proof.
  intros Hm Hk w. unfold mbind, M_bind, bind.
  destruct (Hm w) as (n1 & H1 & F1). destruct (m w) as [[a | e] w1]; simpl in *.
  - destruct (Hk a w1) as (n2 & H2 & F2). exists (n1 ++ n2)%list.
    rewrite H2, H1, <- app_assoc. split; [reflexivity | now apply Forall_app].
  - eauto.
Qed.

Lemma shows_subprocess_run (cmd : list string) (timeout : option N) :
  shows_only Q (subprocess_run cmd timeout).
Proof.
  apply shows_same. intros w. unfold subprocess_run.
  now destruct (run_process cmd timeout (fs w)).
Qed.

Lemma shows_named_temporary_file (suffix : string) :
  shows_only Q (named_temporary_file suffix).
Proof.
  unfold named_temporary_file.
  apply shows_bind; [apply shows_get_world | intros w0].
  apply shows_bind; [apply shows_lift | intros path].
  apply shows_bind; [apply shows_set_fs | intros _; apply shows_ret].
Qed.

Lemma shows_read_text (path : string) : shows_only Q (read_text path).
Proof.
  unfold read_text. apply shows_bind; [apply shows_get_world | intros w0].
  destruct (fs w0 !! path); [apply shows_ret | apply shows_raise].
Qed.

Lemma shows_os_unlink (path : string) : shows_only Q (os_unlink path).
Proof.
  unfold os_unlink. apply shows_bind; [apply shows_get_world | intros w0].
  destruct (fs w0 !! path); [apply shows_set_fs | apply shows_raise].
Qed.

End Rules.

End ShowFacts.

(* ===================================================================== *)
(** ** accessibility_tester.py: more on the page script *)
(* ===================================================================== *)

Module PageProofs.
Import PyStr PyStrFacts AccessibilityTester Spawns ShowFacts TesterProofs
       DispatchProofs.

(** X10: the selection holds a standard exactly when its box is ticked, in
    the order of the boxes, and it is empty exactly when no box is
    ticked. *)
Theorem selected_standards_spec (i : widgets) :
  (forall s,
      In s (selected_standards i)
      <-> (s = "WCAG 2.0A" /\ w_wcag2a i = true)
          \/ (s = "WCAG 2.0AA" /\ w_wcag2aa i = true)
          \/ (s = "Best-practice" /\ w_best_practice i = true)
          \/ (s = "Aria" /\ w_aria i = true))
  /\ sublist (selected_standards i) all_standards
  /\ (selected_standards i = []
      <-> w_wcag2a i = false /\ w_wcag2aa i = false
          /\ w_best_practice i = false /\ w_aria i = false).
Proof.
  unfold selected_standards, all_standards. split; [| split].
  - intros s.
    destruct (w_wcag2a i), (w_wcag2aa i), (w_best_practice i), (w_aria i); simpl;
      intuition (subst; auto; try congruence).
  - destruct (w_wcag2a i), (w_wcag2aa i), (w_best_practice i), (w_aria i); simpl;
      solve [repeat first [apply sublist_nil | apply sublist_skip | apply sublist_cons]].
  - destruct (w_wcag2a i), (w_wcag2aa i), (w_best_practice i), (w_aria i); simpl;
      split; intros H; try discriminate H; intuition congruence.
Qed.

(** X11: the comma-joined argument of the command line determines the
    selection: two selections with the same joined text are the same. *)
Theorem standards_str_injective (i j : widgets) :
  join "," (selected_standards i) = join "," (selected_standards j) ->
  selected_standards i = selected_standards j.
Proof.
  unfold selected_standards.
  destruct (w_wcag2a i), (w_wcag2aa i), (w_best_practice i), (w_aria i),
           (w_wcag2a j), (w_wcag2aa j), (w_best_practice j), (w_aria j);
    intros H; try reflexivity; vm_compute in H; discriminate H.
Qed.

Lemma standards_str_injective_witness :
  selected_standards
    (mk_widgets "https://example.com" true false false true false false)
  = selected_standards (mk_widgets "ftp://x" true false false true true true).
Proof. apply standards_str_injective. reflexivity. Defined.

Section Page.
Context `{E : Env}.

Lemma run_node_axe_shows (url : string) (standards_list : list string)
    (device_type : string) (keyboard_testing : bool) :
  shows_only fit_for_viewer
    (run_node_axe url standards_list device_type keyboard_testing).
Proof.
  unfold run_node_axe.
  apply shows_bind; [apply shows_named_temporary_file | intros out_file].
  apply shows_bind; [apply shows_subprocess_run | intros result].
  destruct (negb (returncode result =? 0)%Z).
  - apply shows_bind; [now apply shows_show | intros _; apply shows_ret].
  - apply shows_bind; [apply shows_read_text | intros html].
    apply shows_bind; [apply shows_os_unlink | intros _; apply shows_ret].
Qed.

(** X14: every page the script hands to the viewer went through
    [render_html]: it passes the doctype test and, if it has a [<head>],
    holds the charset, viewport and CSP markers. *)
Theorem page_embeds_settled (i : widgets) (w : World) :
  exists new,
    ui (snd (page i w)) = (ui w ++ new)%list
    /\ Forall (fun e =>
                 match e with
                 | StHtml html _ _ =>
                     startswith (strip html) "<!DOCTYPE" = true
                     /\ (str_in "<head>" html = true ->
                         str_in "<meta charset=" html = true
                         /\ str_in "viewport" html = true
                         /\ str_in "Content-Security-Policy" html = true)
                 | _ => True
                 end) new.
Proof.
  assert (H : shows_only fit_for_viewer (page i)).
  { unfold page. apply shows_bind.
    { destruct (negb (is_empty (w_url i)) && negb (is_valid_url (w_url i)));
        [now apply shows_show | apply shows_ret]. }
    intros _.
    destruct (negb (is_empty (w_url i)) && is_valid_url (w_url i)); [| apply shows_ret].
    destruct (selected_standards i) as [| s l]; [now apply shows_show |].
    apply shows_bind; [now apply shows_show | intros _].
    destruct (w_button i); [| apply shows_ret].
    apply shows_bind; [apply run_node_axe_shows | intros desktop_html].
    apply shows_bind; [apply run_node_axe_shows | intros mobile_html].
    apply shows_bind; [now apply shows_show | intros _].
    apply shows_bind; [apply shows_show, render_html_is_settled | intros _].
    apply shows_bind; [now apply shows_show | intros _].
    apply shows_bind; [apply shows_show, render_html_is_settled | intros _].
    now apply shows_show. }
  destruct (H w) as (new & Hnew & Hall). exists new. split; [exact Hnew |].
  eapply Forall_impl; [exact Hall |]. intros [] Hx; exact Hx || exact I.
Qed.

(** The page script when the run is started. *)
Lemma page_started (i : widgets) (w : World) :
  is_valid_url (w_url i) = true -> selected_standards i <> [] -> w_button i = true ->
  page i w
  = (desktop_html ← run_node_axe (w_url i) (selected_standards i) "desktop"
                      (w_keyboard_testing i);
     mobile_html ← run_node_axe (w_url i) (selected_standards i) "mobile"
                     (w_keyboard_testing i);
     show (StMarkdown desktop_note);;
     show (StHtml (render_html desktop_html) 700 true);;
     show (StMarkdown mobile_note);;
     show (StHtml (render_html mobile_html) 700 true);;
     show (StSuccess completed_msg))
      (shown w [StInfo ("**Selected standards:** "
                        ++ join ", " (selected_standards i))]).
Proof.
  intros Hv Hs Hb. unfold page.
  rewrite (valid_url_nonempty _ Hv), Hv, Hb.
  destruct (selected_standards i) as [| s l]; [congruence | reflexivity].
Qed.


(** X13: a started run in which the auditor exits with a non-zero code
    both times: each failure is shown as an error, the fixed error page is
    embedded for both profiles, the success message is shown all the same,
    and no temporary file is removed. *)
Theorem page_run_fails (i : widgets) (w : World) (p1 p2 : string)
    (cp1 cp2 : CompletedProcess) (f1 f2 : gmap string string) :
  is_valid_url (w_url i) = true -> selected_standards i <> [] -> w_button i = true ->
  temp_name (fs w) ".html" = Return p1 ->
  run_process (axe_cmd (w_url i) (selected_standards i) "desktop" p1
                 (w_keyboard_testing i)) None (<[p1 := EmptyString]> (fs w))
  = (Return cp1, f1) ->
  returncode cp1 <> 0%Z ->
  temp_name f1 ".html" = Return p2 ->
  run_process (axe_cmd (w_url i) (selected_standards i) "mobile" p2
                 (w_keyboard_testing i)) None (<[p2 := EmptyString]> f1)
  = (Return cp2, f2) ->
  returncode cp2 <> 0%Z ->
  page i w
  = (Return tt,
     {| fs := f2;
        spawned := (spawned w
                    ++ [axe_cmd (w_url i) (selected_standards i) "desktop" p1
                          (w_keyboard_testing i);
                        axe_cmd (w_url i) (selected_standards i) "mobile" p2
                          (w_keyboard_testing i)])%list;
        ui := (ui w
               ++ [StInfo ("**Selected standards:** "
                           ++ join ", " (selected_standards i));
                   StError ("Error running accessibility test: " ++ stderr cp1);
                   StError ("Error running accessibility test: " ++ stderr cp2);
                   StMarkdown desktop_note;
                   StHtml (render_html error_page) 700 true;
                   StMarkdown mobile_note;
                   StHtml (render_html error_page) 700 true;
                   StSuccess completed_msg])%list;
        session := session w |}).
Proof.
  intros Hv Hs Hb Ht1 Hr1 Hc1 Ht2 Hr2 Hc2.
  rewrite (page_started i w Hv Hs Hb). unfold mbind, M_bind, bind.
  match goal with
  | |- context [run_node_axe _ _ "desktop" _ ?w0] =>
      rewrite (run_node_axe_failed _ _ _ _ w0 p1 cp1 f1 Ht1 Hr1 Hc1)
  end.
  match goal with
  | |- context [run_node_axe _ _ "mobile" _ ?w0] =>
      rewrite (run_node_axe_failed _ _ _ _ w0 p2 cp2 f2 Ht2 Hr2 Hc2)
  end.
  unfold show. cbn. now rewrite <- !app_assoc.
Qed.

End Page.

End PageProofs.

(* ===================================================================== *)
(** ** streamlit_a11y_app.py: more on [run_accessibility_check] and [main] *)
(* ===================================================================== *)

Module CheckProofs.
Import PyStr PyStrFacts Sim StreamlitA11yApp Spawns AppProofs AxeProofs
       FrontEndProofs.

Section Check.
Context `{E : Env}.

(** X15: [run_accessibility_check] spawns the auditor exactly once per
    call, with the words [node ./streamlit_a11y_checker.js url], however the
    call ends; it shows nothing and leaves the session state alone. *)
Theorem check_spawns_once (url : string) (w : World) :
  spawned (snd (run_accessibility_check url w))
  = (spawned w ++ [["node"; "./streamlit_a11y_checker.js"; url]])%list
  /\ ui (snd (run_accessibility_check url w)) = ui w
  /\ session (snd (run_accessibility_check url w)) = session w.
Proof.
  destruct (check_world url w) as [files H]. rewrite H. repeat split.
Qed.

(** X16: after a non-zero exit the result is the failure record whatever
    the exit code and the standard output were: success false, the error
    [Node.js script failed: ] followed by the captured error stream, and a
    fragment in which that stream stands as it is. *)
Theorem check_failure_record (url : string) (w : World) (cp : CompletedProcess)
    (files : gmap string string) :
  run_process (check_cmd url) (Some 60%N) (fs w) = (Return cp, files) ->
  returncode cp <> 0%Z ->
  exists result html,
    fst (run_accessibility_check url w) = Return result
    /\ get_item result "success" = Some (PBool false)
    /\ get_item result "error" = Some (PStr ("Node.js script failed: " ++ stderr cp))
    /\ get_item result "streamlitHtml" = Some (PStr html)
    /\ html = "<div style=" ++ dq ++ "padding: 20px; color: red;" ++ dq
              ++ ">Error: " ++ stderr cp ++ "</div>"
    /\ str_in (stderr cp) html = true.
Proof.
  intros Hrun Hrc. rewrite (check_failed _ _ _ _ Hrun Hrc).
  exists (failed_record (stderr cp)), (red_block ("Error: " ++ stderr cp)).
  repeat split.
  exact (str_in_mid (stderr cp)
           ("<div style=" ++ dq ++ "padding: 20px; color: red;" ++ dq ++ ">Error: ")
           "</div>").
Qed.

(** X17: an exception other than a timeout that [subprocess.run] raises,
    or that [json.loads] raises on the output of an auditor that exited
    with 0, is turned into a record with success false, the text of the
    exception as error, and a fragment in which that text stands. *)
Theorem check_exception_record (url : string) (w : World) (e : exn) :
  is_Exception e = true -> is_TimeoutExpired e = false ->
  (exists files, run_process (check_cmd url) (Some 60%N) (fs w) = (Raise e, files))
  \/ (exists cp files,
         run_process (check_cmd url) (Some 60%N) (fs w) = (Return cp, files)
         /\ returncode cp = 0%Z /\ json_loads (stdout cp) = Raise e) ->
  exists result html,
    fst (run_accessibility_check url w) = Return result
    /\ get_item result "success" = Some (PBool false)
    /\ get_item result "error" = Some (PStr (exn_str e))
    /\ get_item result "streamlitHtml" = Some (PStr html)
    /\ str_in (exn_str e) html = true.
Proof.
  intros He Ht Hcase.
  assert (Hh : handled e = Some (exception_record (exn_str e)))
    by (unfold handled; now rewrite Ht, He).
  assert (Hr : fst (run_accessibility_check url w)
               = Return (exception_record (exn_str e))).
  { destruct Hcase as [(files & Hrun) | (cp & files & Hrun & Hrc & Hj)].
    - now rewrite (check_spawn_raises _ _ _ _ Hrun), Hh.
    - now rewrite (check_decode_raises _ _ _ _ _ Hrun Hrc Hj), Hh. }
  exists (exception_record (exn_str e)), (red_block ("Error: " ++ exn_str e)).
  split; [exact Hr |]. repeat split.
  exact (str_in_mid (exn_str e)
           ("<div style=" ++ dq ++ "padding: 20px; color: red;" ++ dq ++ ">Error: ")
           "</div>").
Qed.

(** X18: the only exceptions that leave [run_accessibility_check] are
    those that are not instances of [Exception]: if the call raises, the
    exception is neither a timeout nor an [Exception]. *)
Theorem check_raises_only_base (url : string) (w w' : World) (e : exn) :
  run_accessibility_check url w = (Raise e, w') ->
  is_Exception e = false /\ is_TimeoutExpired e = false.
Proof.
  assert (Hn : forall e0, handled e0 = None ->
                 is_Exception e0 = false /\ is_TimeoutExpired e0 = false).
  { intros e0. unfold handled. destruct (is_TimeoutExpired e0); [discriminate |].
    destruct (is_Exception e0); [discriminate | auto]. }
  destruct (run_process (check_cmd url) (Some 60%N) (fs w)) as [[cp | e0] files] eqn:Hrun.
  - destruct (Z.eq_dec (returncode cp) 0%Z) as [Hrc | Hrc].
    + destruct (json_loads (stdout cp)) as [v | e0] eqn:Hj.
      * rewrite (check_parsed _ _ _ _ _ Hrun Hrc Hj). discriminate.
      * rewrite (check_decode_raises _ _ _ _ _ Hrun Hrc Hj).
        destruct (handled e0) eqn:H0; [discriminate |].
        intros H. inversion H; subst. now apply Hn.
    + rewrite (check_failed _ _ _ _ Hrun Hrc). discriminate.
  - rewrite (check_spawn_raises _ _ _ _ Hrun).
    destruct (handled e0) eqn:H0; [discriminate |].
    intros H. inversion H; subst. now apply Hn.
Qed.

(** A pending test that ends with an exception leaves the session as it
    was. *)
Lemma pending_raises (w w1 : World) (u : string) (e : exn) :
  run_test (session w) = Some true -> test_url (session w) = Some u ->
  pending w = (Raise e, w1) -> session w1 = session w.
Proof.
  intros Hrt Hu. unfold pending, mbind, M_bind, bind, get_world.
  rewrite Hrt, Hu. cbn.
  match goal with
  | |- context [run_accessibility_check u ?w1] =>
      destruct (check_world u w1) as [files Hw];
      destruct (run_accessibility_check u w1) as [[result | e0] w2]
  end; simpl in Hw; subst w2; cbn.
  - unfold lift. destruct (snd (present_result result)) as [[] | e0]; cbn;
      intros H; inversion H; reflexivity.
  - intros H. inversion H. reflexivity.
Qed.




(** X20: a run of [main] started with the button and a non-empty URL that
    ends with an exception (the presentation of the result fails, say)
    leaves the test pending: every later run, without the button and
    whatever the text input holds, starts the auditor again for that
    URL. *)
Theorem main_failure_reruns (url : string) (w w1 : World) (e : exn) :
  url <> EmptyString ->
  main url true w = (Raise e, w1) ->
  session w1 = {| test_url := Some url; run_test := Some true |}
  /\ forall url',
       spawned (snd (main url' false w1)) = (spawned w1 ++ [check_cmd url])%list.
Proof.
  intros Hne H. rewrite main_halves in H.
  unfold mbind, M_bind, bind, sidebar in H.
  apply nonempty_neq in Hne. rewrite Hne in H. cbn in H.
  match type of H with
  | pending ?w0 = _ => pose proof (pending_raises w0 w1 url e eq_refl eq_refl H) as Hs
  end.
  cbn in Hs. split; [exact Hs |].
  intros url'. rewrite main_halves. unfold mbind, M_bind, bind, sidebar. cbn.
  apply pending_runs; rewrite Hs; reflexivity.
Qed.

End Check.

End CheckProofs.

(* ===================================================================== *)
(** ** streamlit_a11y_app.py: the filter of the issue list *)
(* ===================================================================== *)

Module FilterProofs.
Import PyStr StreamlitA11yApp.

Lemma subscript_get (v : pyval) (k : string) (x : pyval) :
  get_item v k = Some x -> subscript v k = Return x.
Proof. destruct v; simpl; try discriminate. now intros ->. Qed.

(** The labels that have an entry in [filter_map]. *)
Lemma label_cases (label wanted : string) :
  lookup_label filter_map label = Some wanted ->
  (label = "Errors" /\ wanted = "error")
  \/ (label = "Warnings" /\ wanted = "warning")
  \/ (label = "Notices" /\ wanted = "notice").
Proof.
  unfold filter_map. cbn [lookup_label].
  destruct (String.eqb_spec "Errors" label) as [<- | _]; [intros [= <-]; auto |].
  destruct (String.eqb_spec "Warnings" label) as [<- | _]; [intros [= <-]; auto |].
  destruct (String.eqb_spec "Notices" label) as [<- | _]; [intros [= <-]; auto |].
  discriminate.
Qed.

Lemma label_not_all (label wanted : string) :
  lookup_label filter_map label = Some wanted -> String.eqb label "All" = false.
Proof.
  intros H. destruct (label_cases _ _ H) as [[-> _] | [[-> _] | [-> _]]]; reflexivity.
Qed.

Lemma keep_type_typed (label wanted : string) (items : list pyval) :
  lookup_label filter_map label = Some wanted ->
  Forall typed_issue items ->
  keep_type label items = Return (List.filter (has_type wanted) items).
Proof.
  intros Hl. induction 1 as [| i items [t Ht] _ IH]; [reflexivity |].
  cbn [keep_type List.filter]. rewrite (subscript_get _ _ _ Ht), Hl, IH.
  unfold has_type. now rewrite Ht.
Qed.

Lemma keep_type_stops (label wanted : string) (good rest : list pyval)
    (bad : pyval) (e : exn) :
  lookup_label filter_map label = Some wanted ->
  Forall typed_issue good -> subscript bad "type" = Raise e ->
  keep_type label (good ++ bad :: rest)%list = Raise e.
Proof.
  intros Hl Hg Hb. induction Hg as [| i items [t Ht] _ IH].
  - cbn [app keep_type]. now rewrite Hb.
  - rewrite <- app_comm_cons. cbn [keep_type].
    now rewrite (subscript_get _ _ _ Ht), Hl, IH.
Qed.

Lemma filtered_issues_typed_aux (summary : pyval) (items : list pyval)
    (label wanted : string) :
  get_item summary "issues" = Some (PList items) ->
  lookup_label filter_map label = Some wanted ->
  Forall typed_issue items ->
  filtered_issues summary label
  = Return (PList (List.filter (has_type wanted) items)).
Proof.
  intros Hi Hl Ht. unfold filtered_issues.
  rewrite (subscript_get _ _ _ Hi), (label_not_all _ _ Hl). cbn [negb iterate].
  now rewrite (keep_type_typed _ _ _ Hl Ht).
Qed.

(** X21: for a summary whose [issues] entry is a list of dicts that all
    have a [type] entry, choosing Errors, Warnings or Notices gives the
    issues whose type is the string [error], [warning] or [notice], in
    their order; no exception is raised. *)
Theorem filtered_issues_typed (summary : pyval) (items : list pyval)
    (label wanted : string) :
  get_item summary "issues" = Some (PList items) ->
  lookup_label filter_map label = Some wanted ->
  Forall typed_issue items ->
  filtered_issues summary label
  = Return (PList (List.filter (has_type wanted) items)).
Proof. apply filtered_issues_typed_aux. Qed.

(** The three types split a list of issues of these types. *)
Lemma three_types_split (items : list pyval) :
  Forall (fun i => exists t, get_item i "type" = Some (PStr t)
                             /\ (t = "error" \/ t = "warning" \/ t = "notice"))
    items ->
  length (List.filter (has_type "error") items)
  + length (List.filter (has_type "warning") items)
  + length (List.filter (has_type "notice") items)
  = length items.
Proof.
  induction 1 as [| i items (t & Ht & Hcase) _ IH]; [reflexivity |].
  assert (He : has_type "error" i = String.eqb t "error")
    by (unfold has_type; now rewrite Ht).
  assert (Hw : has_type "warning" i = String.eqb t "warning")
    by (unfold has_type; now rewrite Ht).
  assert (Hn : has_type "notice" i = String.eqb t "notice")
    by (unfold has_type; now rewrite Ht).
  cbn [List.filter]. rewrite He, Hw, Hn.
  destruct Hcase as [-> | [-> | ->]]; cbn [String.eqb Ascii.eqb Bool.eqb];
    cbn [length]; lia.
Qed.

(** X22: when every issue has one of the three types, the lists shown
    under Errors, Warnings and Notices have together as many issues as the
    list shown under All, which is the whole list. *)
Theorem filtered_issues_partition (summary : pyval) (items : list pyval) :
  get_item summary "issues" = Some (PList items) ->
  Forall (fun i => exists t, get_item i "type" = Some (PStr t)
                             /\ (t = "error" \/ t = "warning" \/ t = "notice"))
    items ->
  exists errors warnings notices,
    filtered_issues summary "Errors" = Return (PList errors)
    /\ filtered_issues summary "Warnings" = Return (PList warnings)
    /\ filtered_issues summary "Notices" = Return (PList notices)
    /\ filtered_issues summary "All" = Return (PList items)
    /\ length errors + length warnings + length notices = length items.
Proof.
  intros Hi Ht.
  assert (Hty : Forall typed_issue items).
  { eapply Forall_impl; [exact Ht |]. intros i (t & H & _). now exists (PStr t). }
  exists (List.filter (has_type "error") items),
         (List.filter (has_type "warning") items),
         (List.filter (has_type "notice") items).
  split; [now apply filtered_issues_typed_aux |].
  split; [now apply filtered_issues_typed_aux |].
  split; [now apply filtered_issues_typed_aux |].
  split; [| now apply three_types_split].
  unfold filtered_issues. now rewrite (subscript_get _ _ _ Hi).
Qed.

(** X23: the filter looks at the issues only when a type is chosen: under
    Errors, Warnings or Notices the first issue on which [issue['type']]
    raises (a dict without that key, or no dict at all) ends the filter
    with that exception, while under All the list is passed on as it is. *)
Theorem filtered_issues_untyped (summary : pyval) (good rest : list pyval)
    (bad : pyval) (label wanted : string) (e : exn) :
  get_item summary "issues" = Some (PList (good ++ bad :: rest)%list) ->
  lookup_label filter_map label = Some wanted ->
  Forall typed_issue good ->
  subscript bad "type" = Raise e ->
  filtered_issues summary label = Raise e
  /\ filtered_issues summary "All" = Return (PList (good ++ bad :: rest)%list)
  /\ (forall d, bad = PDict d -> e = mk_exn KeyError "'type'").
Proof.
  intros Hi Hl Hg Hb. unfold filtered_issues.
  rewrite (subscript_get _ _ _ Hi), (label_not_all _ _ Hl). cbn [negb iterate].
  rewrite (keep_type_stops _ _ _ _ _ _ Hl Hg Hb). repeat split.
  intros d ->. simpl in Hb. destruct (dict_get d "type"); [discriminate |].
  now inversion Hb.
Qed.

End FilterProofs.

(* ===================================================================== *)
(** ** The additional properties on the simulated environment *)
(* ===================================================================== *)

Module Examples.
Import PyStr PyStrFacts Sim AccessibilityTester StreamlitA11yApp Spawns
       DispatchProofs AxeProofs PageProofs AppProofs FrontEndProofs CheckProofs
       FilterProofs.


Lemma run_node_axe_spawns_once_witness :
  spawned (snd (@run_node_axe failing "https://example.com" ["Aria"] "mobile" true
                  fresh_world))
  = (spawned fresh_world
     ++ [["node"; "a11y_audit.js"; "https://example.com"; join "," ["Aria"]; "mobile";
          "/tmp/tmp0.html"; "true"]])%list.
Proof.
  apply (proj1 (@run_node_axe_spawns_once failing "https://example.com" ["Aria"]
                  "mobile" true fresh_world)).
  vm_compute. reflexivity.
Defined.

Lemma run_node_axe_propagates_witness :
  exists w',
    @run_node_axe (sim_env NotInstalled) "https://example.com" ["Aria"] "desktop"
      false fresh_world
    = (Raise (mk_exn FileNotFoundError "[Errno 2] No such file or directory: 'node'"),
       w')
    /\ fs w' = <["/tmp/tmp0.html" := EmptyString]> ∅ /\ ui w' = ui fresh_world
    /\ ((<["/tmp/tmp0.html" := EmptyString]> ∅ : gmap string string)
        = <["/tmp/tmp0.html" := EmptyString]> (fs fresh_world)
        -> fs w' !! "/tmp/tmp0.html" = Some EmptyString).
Proof.
  apply (@run_node_axe_propagates (sim_env NotInstalled) "https://example.com"
           ["Aria"] "desktop" false fresh_world "/tmp/tmp0.html").
  - vm_compute. reflexivity.
  - reflexivity.
Defined.

Lemma run_node_axe_report_missing_witness :
  exists e w',
    @run_node_axe sweeping_env "https://example.com" ["Aria"] "desktop" false
      fresh_world = (Raise e, w')
    /\ exn_class_of e = FileNotFoundError
    /\ str_in "/tmp/tmp0.html" (exn_str e) = true
    /\ ui w' = ui fresh_world.
Proof.
  apply (@run_node_axe_report_missing sweeping_env "https://example.com" ["Aria"]
           "desktop" false fresh_world "/tmp/tmp0.html"
           (mk_completed 0 EmptyString EmptyString)
           (delete "/tmp/tmp0.html" (<["/tmp/tmp0.html" := EmptyString]> ∅))).
  - vm_compute. reflexivity.
  - reflexivity.
  - reflexivity.
  - vm_compute. reflexivity.
Defined.


Lemma page_run_fails_witness :
  fst (@page failing started fresh_world) = Return tt
  /\ ui (snd (@page failing started fresh_world))
     = [StInfo "**Selected standards:** WCAG 2.0A";
        StError "Error running accessibility test: boom";
        StError "Error running accessibility test: boom";
        StMarkdown desktop_note;
        StHtml (render_html error_page) 700 true;
        StMarkdown mobile_note;
        StHtml (render_html error_page) 700 true;
        StSuccess completed_msg]
  /\ fs (snd (@page failing started fresh_world))
     = <["/tmp/tmp1.html" := EmptyString]> (<["/tmp/tmp0.html" := EmptyString]> ∅).
Proof.
  rewrite (@page_run_fails failing started fresh_world
             "/tmp/tmp0.html" "/tmp/tmp1.html"
             (mk_completed 1 EmptyString "boom") (mk_completed 1 EmptyString "boom")
             (<["/tmp/tmp0.html" := EmptyString]> ∅)
             (<["/tmp/tmp1.html" := EmptyString]>
                (<["/tmp/tmp0.html" := EmptyString]> ∅))).
  - repeat split; reflexivity.
  - reflexivity.
  - discriminate.
  - reflexivity.
  - vm_compute. reflexivity.
  - reflexivity.
  - discriminate.
  - vm_compute. reflexivity.
  - reflexivity.
  - discriminate.
Defined.

Lemma check_failure_record_witness :
  exists result html,
    fst (@run_accessibility_check failing "https://example.com" fresh_world)
    = Return result
    /\ get_item result "success" = Some (PBool false)
    /\ get_item result "error" = Some (PStr ("Node.js script failed: " ++ "boom"))
    /\ get_item result "streamlitHtml" = Some (PStr html)
    /\ html = "<div style=" ++ dq ++ "padding: 20px; color: red;" ++ dq
              ++ ">Error: " ++ "boom" ++ "</div>"
    /\ str_in "boom" html = true.
Proof.
  apply (@check_failure_record failing "https://example.com" fresh_world
           (mk_completed 1 EmptyString "boom") ∅).
  - reflexivity.
  - discriminate.
Defined.

Lemma check_exception_record_witness :
  exists result html,
    fst (@run_accessibility_check (sim_env NotInstalled) "https://example.com"
           fresh_world) = Return result
    /\ get_item result "success" = Some (PBool false)
    /\ get_item result "error"
       = Some (PStr "[Errno 2] No such file or directory: 'node'")
    /\ get_item result "streamlitHtml" = Some (PStr html)
    /\ str_in "[Errno 2] No such file or directory: 'node'" html = true.
Proof.
  apply (@check_exception_record (sim_env NotInstalled) "https://example.com"
           fresh_world
           (mk_exn FileNotFoundError "[Errno 2] No such file or directory: 'node'")).
  - reflexivity.
  - reflexivity.
  - left. exists ∅. reflexivity.
Defined.

Lemma check_raises_only_base_witness :
  is_Exception (mk_exn KeyboardInterrupt EmptyString) = false
  /\ is_TimeoutExpired (mk_exn KeyboardInterrupt EmptyString) = false.
Proof.
  apply (@check_raises_only_base interrupted_env "https://example.com" fresh_world
           (spawned_check fresh_world "https://example.com" ∅)).
  reflexivity.
Defined.


Lemma main_failure_reruns_witness :
  session after_failed_presentation
  = {| test_url := Some "https://example.com"; run_test := Some true |}
  /\ forall url',
       spawned (snd (@main (failing_present_env boom_auditor) url' false
                       after_failed_presentation))
       = (spawned after_failed_presentation ++ [check_cmd "https://example.com"])%list.
Proof.
  apply (@main_failure_reruns (failing_present_env boom_auditor)
           "https://example.com" fresh_world after_failed_presentation
           (mk_exn KeyError "'summary'")).
  - discriminate.
  - vm_compute. reflexivity.
Defined.

Lemma filtered_issues_typed_witness :
  filtered_issues sample_summary "Errors"
  = Return (PList (List.filter (has_type "error")
                     [sample_issue "error"; sample_issue "notice";
                      sample_issue "error"])).
Proof.
  apply filtered_issues_typed.
  - reflexivity.
  - reflexivity.
  - repeat first [apply List.Forall_nil
                 | apply List.Forall_cons; [eexists; reflexivity |]].
Defined.

Lemma filtered_issues_partition_witness :
  exists errors warnings notices,
    filtered_issues sample_summary "Errors" = Return (PList errors)
    /\ filtered_issues sample_summary "Warnings" = Return (PList warnings)
    /\ filtered_issues sample_summary "Notices" = Return (PList notices)
    /\ filtered_issues sample_summary "All"
       = Return (PList [sample_issue "error"; sample_issue "notice";
                        sample_issue "error"])
    /\ length errors + length warnings + length notices
       = length [sample_issue "error"; sample_issue "notice"; sample_issue "error"].
Proof.
  apply filtered_issues_partition.
  - reflexivity.
  - repeat first [apply List.Forall_nil
                 | apply List.Forall_cons;
                   [eexists; split; [reflexivity | tauto] |]].
Defined.

Lemma filtered_issues_untyped_witness :
  filtered_issues broken_summary "Notices" = Raise (mk_exn KeyError "'type'")
  /\ filtered_issues broken_summary "All"
     = Return (PList ([sample_issue "error"]
                      ++ PDict [("message", PStr "m")] :: [sample_issue "notice"])%list)
  /\ (forall d, PDict [("message", PStr "m")] = PDict d
                -> mk_exn KeyError "'type'" = mk_exn KeyError "'type'").
Proof.
  apply (filtered_issues_untyped broken_summary [sample_issue "error"]
           [sample_issue "notice"] (PDict [("message", PStr "m")]) "Notices" "notice").
  - reflexivity.
  - reflexivity.
  - repeat first [apply List.Forall_nil
                 | apply List.Forall_cons; [eexists; reflexivity |]].
  - reflexivity.
Defined.

End Examples.
